(** * Verification of the real-time fan-out core of Engineering-Karma/interviews

    Shallow embedding of two Python modules:
    - [src/resources/system-design/server-sent-events/implementation/python/main.py]
      (the bounded event history and the [event_generator] stream session);
    - [src/resources/system-design/websocket/implementation/python/main.py]
      (the [ConnectionManager] registry, rooms and broadcasts).

    Every stretch of code between two suspension points of the source runs
    atomically, and the inputs the outside world supplies (clock readings,
    random values, transport failures) are explicit arguments. The two
    broadcasts of [ConnectionManager] iterate the live [active_connections]
    dict and the live room set across their [await]s: [broadcast_run] and
    [broadcast_to_room_run] model them with the steps other coroutines take
    while each send is suspended, including the [RuntimeError] of an
    iterator whose collection changed size. [broadcast] and
    [broadcast_to_room] are the same loops when no other coroutine acts
    during the sends ([broadcast_run_quiet], [room_run_quiet]); the session
    model of [websocket_endpoint] and [chat_room] is built on them, so it
    describes a session whose broadcasts are not interleaved with another
    session's changes to the manager. *)

From Stdlib Require Import ZArith List String Ascii Bool Lia Sorting.Sorted.
Import ListNotations.
Open Scope string_scope.
Open Scope list_scope.
Open Scope Z_scope.

(* ================================================================= *)
(** ** Server-sent events: the event history and [event_generator]   *)
(* ================================================================= *)
Module SSE.

(** Python's [int(s)] on a string, base 10, for strings of code points
    below 256 (a character is the code point of an [ascii]): surrounding
    whitespace is stripped, one optional sign, then decimal digits with
    single underscores allowed between two digits. CPython keeps the
    characters below 127 as they are and maps the other whitespace
    characters to a space, then skips the ASCII spaces [\t \n \v \f \r]
    and [' ']: the whitespace [int] strips is 9-13, 32, and U+0085 and
    U+00A0; the separators 28-31 are not stripped. No other code point
    below 256 is a decimal digit. *)
Definition is_space (c : ascii) : bool :=
  let n := nat_of_ascii c in
  ((9 <=? n) && (n <=? 13))%nat || (n =? 32)%nat || (n =? 133)%nat || (n =? 160)%nat.

Fixpoint drop_space (l : list ascii) : list ascii :=
  match l with
  | c :: r => if is_space c then drop_space r else l
  | [] => []
  end.

Definition strip (l : list ascii) : list ascii := rev (drop_space (rev (drop_space l))).

Definition is_digit (c : ascii) : bool :=
  let n := nat_of_ascii c in ((48 <=? n) && (n <=? 57))%nat.

Definition digit_value (c : ascii) : Z := Z.of_nat (nat_of_ascii c) - 48.

(** [prev_digit] records whether the previous character was a digit: an
    underscore must follow a digit, and the literal must end in a digit. *)
Fixpoint parse_digits (l : list ascii) (acc : Z) (prev_digit : bool) : option Z :=
  match l with
  | [] => if prev_digit then Some acc else None
  | c :: r =>
      if is_digit c then parse_digits r (acc * 10 + digit_value c) true
      else if (nat_of_ascii c =? 95)%nat && prev_digit then parse_digits r acc false
      else None
  end.

(** [sys.get_int_max_str_digits()] of CPython 3.11 and later (and of the
    security releases that back-ported it): converting a literal with more
    digits raises [ValueError]. Leading zeros count, underscores do not. *)
Definition max_str_digits : nat := 4300.

Definition digit_limit (body : list ascii) (v : option Z) : option Z :=
  if (max_str_digits <? List.length (filter is_digit body))%nat then None else v.

Definition py_int (s : string) : option Z :=
  match strip (list_ascii_of_string s) with
  | c :: r =>
      if (nat_of_ascii c =? 43)%nat then digit_limit r (parse_digits r 0 false)
      else if (nat_of_ascii c =? 45)%nat
      then digit_limit r (option_map Z.opp (parse_digits r 0 false))
      else digit_limit (c :: r) (parse_digits (c :: r) 0 false)
  | [] => None
  end.

(** Python's [str(n)] for an integer (used in [f'Update #{event_id_counter}']). *)
Fixpoint nat_digits (fuel : nat) (n : Z) (acc : string) : string :=
  match fuel with
  | O => acc
  | S f =>
      let acc' := String (ascii_of_nat (48 + Z.to_nat (n mod 10))%nat) acc in
      if (n <? 10)%Z then acc' else nat_digits f (n / 10) acc'
  end.

Definition z_to_str (z : Z) : string :=
  if (z <? 0)%Z then String.append "-" (nat_digits (Pos.size_nat (Z.to_pos (- z))) (- z) "")
  else nat_digits (Pos.size_nat (Z.to_pos z)) z "".

(** [event_data] of an update: timestamp, random value and message. *)
Record UpdateData := mkUpdateData {
  ud_timestamp : string;
  ud_value : Z;
  ud_message : string
}.

(** An entry of [event_history]: [{'id': ..., 'type': ..., 'data': ...}]. *)
Record Event := mkEvent {
  ev_id : Z;
  ev_type : string;
  ev_data : UpdateData
}.

(** What the outside world supplies at a tick: [datetime.utcnow()] and
    [random.randint(1, 100)]. *)
Record TickInput := mkTickInput {
  tk_timestamp : string;
  tk_value : Z
}.

(** The JSON value written after [data:]. *)
Inductive Payload :=
| PUpdate (d : UpdateData)
| PMessage (m : string).

(** One string yielded by the generator: [id: n\n], [event: t\n],
    [data: json\n\n] or the comment [: heartbeat\n\n]. *)
Inductive Frame :=
| FId (n : Z)
| FEvent (t : string)
| FData (p : Payload)
| FComment (c : string).

(** The module globals [event_history] and [event_id_counter]. *)
Record SSEState := mkSSEState {
  event_history : list Event;
  event_id_counter : Z
}.

Definition init : SSEState := mkSSEState [] 0.

(** [[e for e in event_history if e['id'] > last_id]] *)
Definition since (last_id : Z) (h : list Event) : list Event :=
  filter (fun e => (last_id <? ev_id e)%Z) h.

Definition replay_frames (e : Event) : list Frame :=
  [FId (ev_id e); FEvent (ev_type e); FData (PUpdate (ev_data e))].

(** Lines 39-49: [if last_event_id:] is false for [None] and for [""];
    a [ValueError] raised by [int] is swallowed before anything is yielded. *)
Definition replay (last_event_id : option string) (st : SSEState) : list Frame :=
  match last_event_id with
  | None => []
  | Some s =>
      if String.eqb s "" then []
      else match py_int s with
           | None => []
           | Some last_id => flat_map replay_frames (since last_id (event_history st))
           end
  end.

(** Line 52: [event_id_counter += 1] for the connection event. *)
Definition connect (st : SSEState) : SSEState :=
  mkSSEState (event_history st) (event_id_counter st + 1).

Definition connected_frames (id : Z) : list Frame :=
  [FId id; FEvent "connected"; FData (PMessage "Connected to SSE stream")].

(** Lines 72-80: [event_history.append(e)], then
    [if len(event_history) > 100: event_history.pop(0)]. *)
Definition append_event (e : Event) (h : list Event) : list Event :=
  let h1 := h ++ [e] in
  if (100 <? List.length h1)%nat then tl h1 else h1.

(** Lines 64-80: one tick of the live loop, up to the first [yield]. *)
Definition tick (t : TickInput) (st : SSEState) : SSEState * UpdateData :=
  let c := event_id_counter st + 1 in
  let d := mkUpdateData (tk_timestamp t) (tk_value t) (String.append "Update #" (z_to_str c)) in
  (mkSSEState (append_event (mkEvent c "update" d) (event_history st)) c, d).

(** Lines 58-89, one iteration per element of [ticks]; the session is
    cancelled when the list runs out. *)
Fixpoint live_loop (ticks : list TickInput) (st : SSEState) : list Frame * SSEState :=
  match ticks with
  | [] => ([], st)
  | t :: ts =>
      let (st1, d) := tick t st in
      let c := event_id_counter st1 in
      let out := [FId c; FEvent "update"; FData (PUpdate d)]
                 ++ (if (c mod 15 =? 0)%Z then [FComment "heartbeat"] else []) in
      let (rest, st2) := live_loop ts st1 in
      (out ++ rest, st2)
  end.

(** [event_generator(last_event_id)] run alone for [List.length ticks] ticks:
    the frames it yields and the globals it leaves. *)
Definition event_generator (last_event_id : option string) (ticks : list TickInput)
    (st : SSEState) : list Frame * SSEState :=
  let r := replay last_event_id st in
  let st1 := connect st in
  let (live, st2) := live_loop ticks st1 in
  (r ++ connected_frames (event_id_counter st1) ++ live, st2).

(** The atomic updates of the globals that concurrent sessions interleave. *)
Inductive Op :=
| OpConnect
| OpTick (t : TickInput).

Definition apply_op (st : SSEState) (o : Op) : SSEState :=
  match o with
  | OpConnect => connect st
  | OpTick t => fst (tick t st)
  end.

Definition run_ops (ops : list Op) (st : SSEState) : SSEState :=
  fold_left apply_op ops st.

(** The body of [health_check] (lines 316-322), at clock reading [now]. *)
Record Health := mkHealth {
  h_status : string;
  h_active_events : nat;
  h_timestamp : string
}.

Definition health_check (st : SSEState) (now : string) : Health :=
  mkHealth "healthy" (List.length (event_history st)) now.

(** Frames that are comments (the keep-alive [: heartbeat]). *)
Definition is_comment (f : Frame) : bool :=
  match f with FComment _ => true | _ => false end.

(** The event appended by [tick t st]. *)
Definition tick_event (t : TickInput) (st : SSEState) : Event :=
  mkEvent (event_id_counter st + 1) "update" (snd (tick t st)).

(** The events the operations [ops] append, in order. *)
Fixpoint appended (ops : list Op) (st : SSEState) : list Event :=
  match ops with
  | [] => []
  | o :: os =>
      match o with OpTick t => [tick_event t st] | OpConnect => [] end
      ++ appended os (apply_op st o)
  end.

(** The last [n] elements of a list. *)
Definition lastn {A} (n : nat) (l : list A) : list A := rev (firstn n (rev l)).

(** Consecutive integers [a, a+1, ..., a+n-1]. *)
Fixpoint zseq (a : Z) (n : nat) : list Z :=
  match n with
  | O => []
  | S m => a :: zseq (a + 1) m
  end.

(** The frames of the live loop, as a function of the counter it starts from. *)
Fixpoint live_frames (c : Z) (ts : list TickInput) : list Frame :=
  match ts with
  | [] => []
  | t :: r =>
      let i := c + 1 in
      [FId i; FEvent "update";
       FData (PUpdate (mkUpdateData (tk_timestamp t) (tk_value t)
                                    (String.append "Update #" (z_to_str i))))]
      ++ (if (i mod 15 =? 0)%Z then [FComment "heartbeat"] else [])
      ++ live_frames i r
  end.

Definition id_lt (a b : Event) : Prop := ev_id a < ev_id b.

(** Invariant of the globals: the counter is non-negative, the stored ids
    strictly increase and lie in [1, event_id_counter]. *)
Definition log_inv (st : SSEState) : Prop :=
  0 <= event_id_counter st /\
  StronglySorted id_lt (event_history st) /\
  Forall (fun e => 1 <= ev_id e <= event_id_counter st) (event_history st).

(* ----------------------------------------------------------------- *)
(** *** Lemmas about the event history *)

Lemma ss_snoc (l : list Event) (a : Event) :
  StronglySorted id_lt l -> Forall (fun e => ev_id e < ev_id a) l ->
  StronglySorted id_lt (l ++ [a]).
Proof.
  induction l as [|x l IH]; simpl; intros Hs Hf.
  - repeat constructor.
  - inversion Hs; subst. inversion Hf; subst.
    constructor; [apply IH; auto|].
    apply Forall_app; split; auto.
Qed.

Lemma ss_tl {A} (R : A -> A -> Prop) (l : list A) :
  StronglySorted R l -> StronglySorted R (tl l).
Proof. destruct l; simpl; [auto | inversion 1; auto]. Qed.

Lemma Forall_tl {A} (P : A -> Prop) (l : list A) : Forall P l -> Forall P (tl l).
Proof. destruct l; simpl; [auto | inversion 1; auto]. Qed.

Lemma append_event_cases (e : Event) (h : list Event) :
  append_event e h = h ++ [e] \/ append_event e h = tl (h ++ [e]).
Proof. unfold append_event. destruct (_ <? _)%nat; auto. Qed.

Lemma tick_history (t : TickInput) (st : SSEState) :
  event_history (fst (tick t st)) = append_event (tick_event t st) (event_history st).
Proof. reflexivity. Qed.

Lemma tick_counter (t : TickInput) (st : SSEState) :
  event_id_counter (fst (tick t st)) = event_id_counter st + 1.
Proof. reflexivity. Qed.

Lemma log_inv_init : log_inv init.
Proof. repeat split; simpl; auto; [lia | constructor]. Qed.

Lemma log_inv_step (st : SSEState) (o : Op) : log_inv st -> log_inv (apply_op st o).
Proof.
  intros (Hc & Hs & Hf). destruct o as [|t]; cbn [apply_op].
  - unfold log_inv, connect; simpl. repeat split; [lia | auto |].
    eapply Forall_impl; [|exact Hf]. simpl; intros; lia.
  - unfold log_inv. rewrite tick_history, tick_counter.
    assert (Hs' : StronglySorted id_lt (event_history st ++ [tick_event t st])).
    { apply ss_snoc; auto. eapply Forall_impl; [|exact Hf]. simpl; intros; lia. }
    assert (Hf' : Forall (fun e => 1 <= ev_id e <= event_id_counter st + 1)
                         (event_history st ++ [tick_event t st])).
    { apply Forall_app; split.
      - eapply Forall_impl; [|exact Hf]. simpl; intros; lia.
      - constructor; [simpl; lia | constructor]. }
    repeat split; [lia | |];
      destruct (append_event_cases (tick_event t st) (event_history st)) as [E|E];
      rewrite E; auto using ss_tl, Forall_tl.
Qed.

Lemma log_inv_run (ops : list Op) (st : SSEState) : log_inv st -> log_inv (run_ops ops st).
Proof.
  revert st; induction ops as [|o ops IH]; simpl; intros st H; auto.
  apply IH, log_inv_step, H.
Qed.

Lemma lastn_lastn_app {A} (n : nat) (y z : list A) :
  lastn n (lastn n y ++ z) = lastn n (y ++ z).
Proof.
  unfold lastn. rewrite !rev_app_distr, rev_involutive, !firstn_app, firstn_firstn.
  replace (Nat.min (n - List.length (rev z)) n) with (n - List.length (rev z))%nat by lia.
  reflexivity.
Qed.

Lemma lastn_short {A} (n : nat) (l : list A) : (List.length l <= n)%nat -> lastn n l = l.
Proof.
  intros H. unfold lastn. rewrite firstn_all2; [apply rev_involutive|].
  rewrite length_rev; exact H.
Qed.

Lemma length_lastn {A} (n : nat) (l : list A) : (List.length (lastn n l) <= n)%nat.
Proof. unfold lastn. rewrite length_rev, length_firstn. lia. Qed.

Lemma lastn_cons {A} (x : A) (l : list A) :
  lastn (List.length l) (x :: l) = l.
Proof.
  unfold lastn. simpl. rewrite firstn_app, length_rev, Nat.sub_diag, firstn_all2
    by (rewrite length_rev; lia).
  simpl. rewrite app_nil_r. apply rev_involutive.
Qed.

Lemma append_event_lastn (e : Event) (h : list Event) :
  (List.length h <= 100)%nat -> append_event e h = lastn 100 (h ++ [e]).
Proof.
  intros H. unfold append_event.
  destruct (Nat.ltb_spec 100 (List.length (h ++ [e]))) as [L|L].
  - rewrite length_app in L; simpl in L.
    destruct h as [|x h']; [simpl in *; lia|].
    simpl in *. assert (E : List.length (h' ++ [e]) = 100%nat)
      by (rewrite length_app; simpl; lia).
    rewrite <- E. symmetry. apply lastn_cons.
  - symmetry. apply lastn_short. exact L.
Qed.

Lemma run_ops_history (ops : list Op) (st : SSEState) :
  (List.length (event_history st) <= 100)%nat ->
  event_history (run_ops ops st) = lastn 100 (event_history st ++ appended ops st).
Proof.
  revert st; induction ops as [|o ops IH]; intros st H.
  - simpl. rewrite app_nil_r. symmetry. apply lastn_short, H.
  - change (run_ops (o :: ops) st) with (run_ops ops (apply_op st o)).
    change (appended (o :: ops) st)
      with ((match o with OpTick t => [tick_event t st] | OpConnect => [] end)
            ++ appended ops (apply_op st o)).
    destruct o as [|t]; cbn [apply_op].
    + apply IH. exact H.
    + rewrite IH by (rewrite tick_history, append_event_lastn by exact H;
                     apply length_lastn).
      rewrite tick_history, append_event_lastn by exact H.
      rewrite lastn_lastn_app, <- app_assoc. reflexivity.
Qed.

Lemma live_loop_frames (ts : list TickInput) (st : SSEState) :
  fst (live_loop ts st) = live_frames (event_id_counter st) ts.
Proof.
  revert st; induction ts as [|t ts IH]; intros st; [reflexivity|].
  cbn [live_loop live_frames].
  destruct (tick t st) as [st1 d] eqn:Et.
  specialize (IH st1). destruct (live_loop ts st1) as [rest st2].
  simpl in IH |- *. rewrite IH.
  unfold tick in Et. injection Et as <- <-. reflexivity.
Qed.

Lemma live_loop_state (ts : list TickInput) (st : SSEState) :
  snd (live_loop ts st) = run_ops (map OpTick ts) st.
Proof.
  revert st; induction ts as [|t ts IH]; intros st; [reflexivity|].
  cbn [live_loop map].
  destruct (tick t st) as [st1 d] eqn:Et.
  specialize (IH st1). destruct (live_loop ts st1) as [rest st2].
  change (run_ops (OpTick t :: map OpTick ts) st) with (run_ops (map OpTick ts) (fst (tick t st))).
  rewrite Et. cbn [snd fst] in IH |- *. exact IH.
Qed.

Lemma event_generator_frames (lei : option string) (ts : list TickInput) (st : SSEState) :
  fst (event_generator lei ts st) =
  replay lei st ++ connected_frames (event_id_counter st + 1)
                ++ live_frames (event_id_counter st + 1) ts.
Proof.
  change (event_id_counter st + 1) with (event_id_counter (connect st)).
  unfold event_generator. rewrite <- live_loop_frames.
  destruct (live_loop ts (connect st)); reflexivity.
Qed.

Lemma event_generator_state (lei : option string) (ts : list TickInput) (st : SSEState) :
  snd (event_generator lei ts st) = run_ops (OpConnect :: map OpTick ts) st.
Proof.
  change (run_ops (OpConnect :: map OpTick ts) st) with (run_ops (map OpTick ts) (connect st)).
  unfold event_generator. rewrite <- live_loop_state.
  destruct (live_loop ts (connect st)); reflexivity.
Qed.

Lemma ss_filter (p : Event -> bool) (l : list Event) :
  StronglySorted id_lt l -> StronglySorted id_lt (filter p l).
Proof.
  induction l as [|x l IH]; simpl; intros H; [constructor|].
  inversion H; subst. destruct (p x); auto.
  constructor; auto. apply Forall_forall. intros y Hy.
  apply filter_In in Hy. eapply Forall_forall in H3; [exact H3|tauto].
Qed.

Lemma filter_keep_all {A} (p : A -> bool) (l : list A) :
  Forall (fun x => p x = true) l -> filter p l = l.
Proof.
  induction l as [|x l IH]; simpl; intros H; auto.
  inversion H; subst. rewrite H2, IH; auto.
Qed.

Lemma run_ops_connects (k : nat) (st : SSEState) :
  event_history (run_ops (repeat OpConnect k) st) = event_history st.
Proof.
  revert st; induction k as [|k IH]; intros st; [reflexivity|].
  simpl. unfold run_ops in IH. rewrite IH. reflexivity.
Qed.

Lemma zseq_lower (b : Z) (m : nat) (r : list Event) :
  map ev_id r = zseq b m -> Forall (fun e => b <= ev_id e) r.
Proof.
  revert b r; induction m as [|m IH]; intros b r H; destruct r as [|e r];
    simpl in H; try discriminate; [constructor|].
  injection H as He Hr. constructor; [lia|].
  eapply Forall_impl; [|apply (IH (b + 1) r Hr)]. simpl; intros; lia.
Qed.

Lemma since_zseq (h : list Event) (a : Z) (n k : nat) :
  map ev_id h = zseq a n -> since (a + Z.of_nat k - 1) h = skipn k h.
Proof.
  revert a n k; induction h as [|e r IH]; intros a n k H.
  - destruct k; reflexivity.
  - destruct n as [|m]; simpl in H; [discriminate|].
    injection H as He Hr. unfold since; simpl.
    destruct k as [|k].
    + replace (a + Z.of_nat 0 - 1 <? ev_id e) with true by (symmetry; apply Z.ltb_lt; lia).
      cbn [skipn]. f_equal. apply filter_keep_all.
      eapply Forall_impl; [|apply (zseq_lower _ _ _ Hr)]. simpl; intros; apply Z.ltb_lt; lia.
    + replace (a + Z.of_nat (S k) - 1 <? ev_id e) with false by (symmetry; apply Z.ltb_ge; lia).
      replace (a + Z.of_nat (S k) - 1) with ((a + 1) + Z.of_nat k - 1) by lia.
      apply (IH (a + 1) m k Hr).
Qed.

Lemma in_append_event (x e : Event) (h : list Event) :
  In x (append_event e h) -> In x h \/ x = e.
Proof.
  intros Hx. assert (In x (h ++ [e])) as Hin.
  { destruct (append_event_cases e h) as [E|E]; rewrite E in Hx; auto.
    destruct (h ++ [e]); simpl in *; tauto. }
  apply in_app_or in Hin. simpl in Hin. intuition.
Qed.

Definition tk0 : TickInput := mkTickInput "2024-01-01T00:00:00" 42.

(* ----------------------------------------------------------------- *)
(** *** Claims about the event history and the stream session *)

(** C1 (as amended): ids come from one global counter, advanced both by
    every append and by every session's unstored "connected" event.  For
    every interleaving of these operations from the empty log, the stored
    ids strictly increase and lie in [1, counter]; an append stores
    [counter + 1] as its last element; a connection advances the counter
    without storing anything. *)
Theorem C1_ids_from_global_counter (ops : list Op) (t : TickInput) :
  let st := run_ops ops init in
  StronglySorted id_lt (event_history st) /\
  Forall (fun e => 1 <= ev_id e <= event_id_counter st) (event_history st) /\
  (exists pre, event_history (apply_op st (OpTick t)) =
               pre ++ [mkEvent (event_id_counter st + 1) "update" (snd (tick t st))]) /\
  event_history (apply_op st OpConnect) = event_history st /\
  event_id_counter (apply_op st OpConnect) = event_id_counter st + 1.
Proof.
  intros st. destruct (log_inv_run ops init log_inv_init) as (Hc & Hs & Hf).
  fold st in Hc, Hs, Hf.
  split; [exact Hs|]. split; [exact Hf|]. split; [|split; reflexivity].
  cbn [apply_op]. rewrite tick_history. unfold append_event.
  destruct (Nat.ltb_spec 100 (List.length (event_history st ++ [tick_event t st]))) as [L|L].
  - destruct (event_history st) as [|x h'] eqn:E; [simpl in L; lia|].
    exists h'. reflexivity.
  - exists (event_history st). reflexivity.
Qed.

(** C1 refuted: from the empty log, the first session's first stored event
    gets id 2, not 1 (its "connected" event used id 1). *)
Lemma C1_first_stored_id_is_2 :
  event_history init = [] /\
  map ev_id (event_history (snd (event_generator None [tk0] init))) = [2].
Proof. split; vm_compute; reflexivity. Qed.

(** C3 (as amended): for every interleaving of connections and appends from
    the empty log, the history holds at most 100 events and is exactly the
    last 100 events appended, in append order (strict FIFO eviction). *)
Theorem C3_bounded_fifo_history (ops : list Op) :
  let st := run_ops ops init in
  (List.length (event_history st) <= 100)%nat /\
  event_history st = lastn 100 (appended ops init).
Proof.
  intros st. assert (E : event_history st = lastn 100 (appended ops init)).
  { apply (run_ops_history ops init). simpl; lia. }
  split; [rewrite E; apply length_lastn | exact E].
Qed.

(** C3 refuted (Scenario B): one session appending 150 events from the
    empty log leaves ids 52..151, so the lowest surviving id is 52, not
    150 - 100 + 1 = 51. *)
Lemma C3_scenario_B_ids_52_to_151 :
  List.length (appended (OpConnect :: map OpTick (repeat tk0 150)) init) = 150%nat /\
  map ev_id (since 0 (event_history (snd (event_generator None (repeat tk0 150) init))))
  = zseq 52 100.
Proof. split; vm_compute; reflexivity. Qed.

Lemma run_ops_only_updates (ops : list Op) (st : SSEState) :
  Forall (fun e => In e (event_history st) \/ ev_type e = "update")
         (event_history (run_ops ops st)).
Proof.
  revert st; induction ops as [|o ops IH]; intros st.
  - apply Forall_forall. auto.
  - change (run_ops (o :: ops) st) with (run_ops ops (apply_op st o)).
    eapply Forall_impl; [|apply IH]. simpl. intros e [He|He]; [|auto].
    destruct o as [|t]; cbn [apply_op] in He; [auto|].
    rewrite tick_history in He. apply in_append_event in He as [He|He]; [auto|].
    subst e. right. reflexivity.
Qed.

(** C5: on every reachable history, [since cursor] returns exactly the
    stored events with id above the cursor, in strictly increasing id
    order; a cursor below the oldest retained id returns the whole history;
    connections (the only other writes) do not change the answer. *)
Theorem C5_since_filters_in_order (ops : list Op) (cursor : Z) :
  let h := event_history (run_ops ops init) in
  (forall e, In e (since cursor h) <-> In e h /\ cursor < ev_id e) /\
  StronglySorted id_lt (since cursor h) /\
  (forall e0 rest, h = e0 :: rest -> cursor < ev_id e0 -> since cursor h = h) /\
  (forall k, since cursor (event_history (run_ops (ops ++ repeat OpConnect k) init))
             = since cursor h).
Proof.
  intros h. destruct (log_inv_run ops init log_inv_init) as (_ & Hs & _).
  fold h in Hs. split; [|split; [|split]].
  - intros e. unfold since. rewrite filter_In, Z.ltb_lt. tauto.
  - apply ss_filter, Hs.
  - intros e0 rest Eh Hlt. rewrite Eh in Hs |- *.
    inversion Hs as [|x l Hs' Hall]; subst.
    apply filter_keep_all. constructor; [apply Z.ltb_lt; exact Hlt|].
    eapply Forall_impl; [|exact Hall]. unfold id_lt. intros e He. apply Z.ltb_lt. lia.
  - intros k. unfold run_ops at 1. rewrite fold_left_app.
    apply (f_equal (since cursor)). apply run_ops_connects.
Qed.

Definition w_ops : list Op := [OpConnect; OpTick tk0; OpTick tk0].

Lemma C5_since_filters_in_order_witness :
  since 0 (event_history (run_ops w_ops init)) = event_history (run_ops w_ops init).
Proof.
  pose proof (C5_since_filters_in_order w_ops 0) as (_ & _ & H3 & _).
  cbv zeta in H3.
  let h := eval vm_compute in (event_history (run_ops w_ops init)) in
  match h with ?e0 :: ?r => apply (H3 e0 r) end.
  - vm_compute. reflexivity.
  - vm_compute. reflexivity.
Defined.

(** A log holding ids 1..100. *)
Definition resume_log : list Event :=
  map (fun i => mkEvent (Z.of_nat i) "update" (mkUpdateData "t" 1 "m")) (seq 1 100).

(** C7 (as amended): a session opened with cursor "95" on a log holding ids
    1..100 with the counter at 100 replays the events 96..100 in order,
    then the "connected" event with the fresh id 101, then the live
    updates, whose ids therefore start at 102. *)
Theorem C7_resume_at_95 (h : list Event) (ticks : list TickInput) (t : TickInput)
    (ts : list TickInput) :
  map ev_id h = zseq 1 100 ->
  fst (event_generator (Some "95") ticks (mkSSEState h 100)) =
    flat_map replay_frames (skipn 95 h) ++ connected_frames 101 ++ live_frames 101 ticks /\
  map ev_id (skipn 95 h) = [96; 97; 98; 99; 100] /\
  hd_error (live_frames 101 (t :: ts)) = Some (FId 102).
Proof.
  intros H. split; [|split].
  - rewrite event_generator_frames. cbn [event_id_counter].
    replace (100 + 1) with 101 by reflexivity.
    unfold replay. replace (String.eqb "95" "") with false by reflexivity.
    replace (py_int "95") with (Some 95) by reflexivity.
    pose proof (since_zseq h 1 100 95 H) as E. change (1 + Z.of_nat 95 - 1) with 95 in E.
    cbn [event_history]. rewrite E. reflexivity.
  - rewrite <- skipn_map, H. vm_compute. reflexivity.
  - reflexivity.
Qed.

Lemma C7_resume_at_95_witness :
  map ev_id resume_log = zseq 1 100 /\
  fst (event_generator (Some "95") [tk0] (mkSSEState resume_log 100)) =
    flat_map replay_frames (skipn 95 resume_log) ++ connected_frames 101
    ++ live_frames 101 [tk0].
Proof.
  assert (H : map ev_id resume_log = zseq 1 100) by (vm_compute; reflexivity).
  split; [exact H|].
  exact (proj1 (C7_resume_at_95 resume_log [tk0] tk0 [] H)).
Defined.

(** C7 refuted: after the replay of 96..100 and the "connected" event 101,
    the first newly generated event has id 102, not 101. *)
Lemma C7_first_live_id_is_102 :
  skipn 15 (fst (event_generator (Some "95") [tk0] (mkSSEState resume_log 100))) =
  [FId 101; FEvent "connected"; FData (PMessage "Connected to SSE stream");
   FId 102; FEvent "update";
   FData (PUpdate (mkUpdateData "2024-01-01T00:00:00" 42 "Update #102"))].
Proof. vm_compute. reflexivity. Qed.

(** C9 (as amended): a session yields its replay, the "connected" event
    [counter + 1], then for its k-th tick the update with id
    [counter + 1 + k] followed by a [: heartbeat] comment exactly when that
    id is a multiple of 15; the comment carries no id and only "update"
    events are ever added to the history. *)
Theorem C9_keepalive_follows_id_multiple_of_15 (lei : option string)
    (ts : list TickInput) (st : SSEState) :
  fst (event_generator lei ts st) =
    replay lei st ++ connected_frames (event_id_counter st + 1)
    ++ live_frames (event_id_counter st + 1) ts /\
  Forall (fun e => In e (event_history st) \/ ev_type e = "update")
         (event_history (snd (event_generator lei ts st))).
Proof.
  split; [apply event_generator_frames|].
  rewrite event_generator_state. apply run_ops_only_updates.
Qed.

(** C9 refuted: the first session on an empty log gets the keep-alive after
    its 14th periodic event (id 15), and none after its 15th (id 16). *)
Lemma C9_fifteenth_update_has_no_keepalive :
  skipn 42 (fst (event_generator None (repeat tk0 15) init)) =
  [FId 15; FEvent "update";
   FData (PUpdate (mkUpdateData "2024-01-01T00:00:00" 42 "Update #15"));
   FComment "heartbeat";
   FId 16; FEvent "update";
   FData (PUpdate (mkUpdateData "2024-01-01T00:00:00" 42 "Update #16"))].
Proof. vm_compute. reflexivity. Qed.

(** C10: a cursor string that [int] rejects makes the session skip the
    replay silently: it yields and stores exactly what a session opened
    without a cursor would. *)
Theorem C10_unparsable_cursor_no_replay (s : string) (ticks : list TickInput)
    (st : SSEState) :
  py_int s = None ->
  replay (Some s) st = [] /\
  event_generator (Some s) ticks st = event_generator None ticks st.
Proof.
  intros H. assert (R : replay (Some s) st = []).
  { unfold replay. destruct (String.eqb s ""); [reflexivity|]. rewrite H. reflexivity. }
  split; [exact R|]. unfold event_generator. rewrite R. reflexivity.
Qed.

Lemma C10_unparsable_cursor_no_replay_witness :
  py_int "abc" = None /\
  event_generator (Some "abc") [tk0] init = event_generator None [tk0] init.
Proof.
  assert (H : py_int "abc" = None) by reflexivity.
  split; [exact H|].
  exact (proj2 (C10_unparsable_cursor_no_replay "abc" [tk0] init H)).
Defined.

(* ----------------------------------------------------------------- *)
(** *** Further properties of the event stream *)

Lemma digit_char (m : Z) :
  0 <= m < 10 -> nat_of_ascii (ascii_of_nat (48 + Z.to_nat m)) = (48 + Z.to_nat m)%nat.
Proof. intros H. apply nat_ascii_embedding. lia. Qed.

Lemma is_digit_spec (c : ascii) :
  is_digit c = true <-> (48 <= nat_of_ascii c <= 57)%nat.
Proof.
  unfold is_digit. rewrite andb_true_iff, !Nat.leb_le. tauto.
Qed.

Lemma digit_not_space (c : ascii) : is_digit c = true -> is_space c = false.
Proof.
  intros H. apply is_digit_spec in H. unfold is_space.
  destruct (Nat.leb_spec 9 (nat_of_ascii c)), (Nat.leb_spec (nat_of_ascii c) 13),
           (Nat.eqb_spec (nat_of_ascii c) 32), (Nat.eqb_spec (nat_of_ascii c) 133),
           (Nat.eqb_spec (nat_of_ascii c) 160);
    simpl; try reflexivity; lia.
Qed.

Lemma nat_digits_parse (f : nat) (n : Z) (acc : string) :
  (0 < f)%nat -> 0 <= n < 10 ^ Z.of_nat f ->
  exists k, 0 <= k /\ forall a p,
    parse_digits (list_ascii_of_string (nat_digits f n acc)) a p =
    parse_digits (list_ascii_of_string acc) (a * 10 ^ k + n) true.
Proof.
  revert n acc; induction f as [|f IH]; intros n acc Hf Hn; [lia|].
  pose proof (Z.mod_pos_bound n 10 ltac:(lia)) as Hm.
  pose proof (Z.div_mod n 10 ltac:(lia)) as Hd.
  cbn [nat_digits]. destruct (Z.ltb_spec n 10) as [L|L].
  - exists 1. split; [lia|]. intros a p. cbn [list_ascii_of_string parse_digits].
    assert (Hdig : is_digit (ascii_of_nat (48 + Z.to_nat (n mod 10))) = true).
    { apply is_digit_spec. rewrite digit_char by lia. lia. }
    rewrite Hdig. unfold digit_value. rewrite digit_char by lia.
    f_equal. rewrite Z.mod_small in * by lia. lia.
  - destruct f as [|f']; [simpl in Hn; lia|].
    destruct (IH (n / 10) (String (ascii_of_nat (48 + Z.to_nat (n mod 10))) acc))
      as (k & Hk & Hp); [lia| |].
    { split; [apply Z.div_pos; lia|]. apply Z.div_lt_upper_bound; [lia|].
      rewrite Nat2Z.inj_succ, Z.pow_succ_r in Hn by lia. lia. }
    exists (k + 1). split; [lia|]. intros a p. rewrite Hp.
    cbn [list_ascii_of_string parse_digits].
    assert (Hdig : is_digit (ascii_of_nat (48 + Z.to_nat (n mod 10))) = true).
    { apply is_digit_spec. rewrite digit_char by lia. lia. }
    rewrite Hdig. unfold digit_value. rewrite digit_char by lia.
    f_equal. rewrite Z.pow_add_r by lia. rewrite Nat2Z.inj_add, Z2Nat.id by lia.
    change (Z.of_nat 48) with 48. rewrite Z.pow_1_r. nia.
Qed.

Lemma nat_digits_all_digits (f : nat) (n : Z) (acc : string) :
  0 <= n -> Forall (fun c => is_digit c = true) (list_ascii_of_string acc) ->
  Forall (fun c => is_digit c = true) (list_ascii_of_string (nat_digits f n acc)).
Proof.
  revert n acc; induction f as [|f IH]; intros n acc Hn Ha; [exact Ha|].
  pose proof (Z.mod_pos_bound n 10 ltac:(lia)) as Hm.
  assert (Hc : Forall (fun c => is_digit c = true)
                 (list_ascii_of_string (String (ascii_of_nat (48 + Z.to_nat (n mod 10))) acc))).
  { constructor; [|exact Ha]. apply is_digit_spec. rewrite digit_char by lia. lia. }
  cbn [nat_digits]. destruct (n <? 10); [exact Hc|].
  apply IH; [apply Z.div_pos; lia | exact Hc].
Qed.

Lemma nat_digits_nonempty (f : nat) (n : Z) (acc : string) :
  (0 < f)%nat -> list_ascii_of_string (nat_digits f n acc) <> [].
Proof.
  assert (G : forall f n acc, list_ascii_of_string acc <> [] ->
                list_ascii_of_string (nat_digits f n acc) <> []).
  { induction f0 as [|f0 IH]; intros m a Ha; [exact Ha|].
    cbn [nat_digits]. destruct (m <? 10); [discriminate|]. apply IH. discriminate. }
  intros Hf. destruct f as [|f]; [lia|]. cbn [nat_digits].
  destruct (n <? 10); [discriminate|]. apply G. discriminate.
Qed.

Lemma nat_digits_length (f : nat) (n : Z) (acc : string) (k : nat) :
  (0 < k)%nat -> 0 <= n < 10 ^ Z.of_nat k ->
  (List.length (list_ascii_of_string (nat_digits f n acc)) <=
   k + List.length (list_ascii_of_string acc))%nat.
Proof.
  revert n acc k; induction f as [|f IH]; intros n acc k Hk Hn; [cbn [nat_digits]; lia|].
  cbn [nat_digits]. destruct (Z.ltb_spec n 10) as [L|L].
  - cbn [list_ascii_of_string List.length]. lia.
  - destruct k as [|[|k]]; [lia| simpl in Hn; lia|].
    eapply Nat.le_trans.
    + apply (IH (n / 10) _ (S k)); [lia|]. split; [apply Z.div_pos; lia|].
      apply Z.div_lt_upper_bound; [lia|].
      rewrite (Nat2Z.inj_succ (S k)), Z.pow_succ_r in Hn by lia. lia.
    + cbn [list_ascii_of_string List.length]. lia.
Qed.

Lemma filter_all_true {A} (p : A -> bool) (l : list A) :
  Forall (fun x => p x = true) l -> filter p l = l.
Proof. induction l as [|x l IH]; simpl; intros H; auto. inversion H; subst. rewrite H2, IH; auto. Qed.

Lemma drop_space_digits (l : list ascii) :
  Forall (fun c => is_digit c = true) l -> drop_space l = l.
Proof. destruct l as [|c l]; intros H; [reflexivity|]. inversion H; subst. simpl.
  rewrite digit_not_space by assumption. reflexivity. Qed.

Lemma strip_digits (l : list ascii) :
  Forall (fun c => is_digit c = true) l -> strip l = l.
Proof.
  intros H. unfold strip. rewrite (drop_space_digits l H).
  rewrite (drop_space_digits (rev l)) by (apply Forall_rev; exact H). apply rev_involutive.
Qed.

Lemma size_nat_bound (p : positive) : Zpos p < 2 ^ Z.of_nat (Pos.size_nat p).
Proof.
  induction p as [p IH|p IH|]; cbn [Pos.size_nat];
    [rewrite Nat2Z.inj_succ, Z.pow_succ_r, Pos2Z.inj_xI by lia; lia
    |rewrite Nat2Z.inj_succ, Z.pow_succ_r, Pos2Z.inj_xO by lia; lia
    |simpl; lia].
Qed.

Lemma z_to_str_digits (z : Z) :
  0 <= z ->
  z_to_str z = nat_digits (Pos.size_nat (Z.to_pos z)) z "" /\
  (0 < Pos.size_nat (Z.to_pos z))%nat /\ z < 10 ^ Z.of_nat (Pos.size_nat (Z.to_pos z)).
Proof.
  intros Hz. unfold z_to_str. destruct (Z.ltb_spec z 0) as [L|L]; [lia|].
  split; [reflexivity|]. split; [destruct (Z.to_pos z); simpl; lia|].
  destruct z as [|p|p]; [simpl; lia| |lia]. simpl Z.to_pos.
  eapply Z.lt_le_trans; [apply size_nat_bound|].
  apply Z.pow_le_mono_l. lia.
Qed.

Lemma filter_drop_all {A} (p : A -> bool) (l : list A) :
  Forall (fun x => p x = false) l -> filter p l = [].
Proof. induction l as [|x l IH]; simpl; intros H; auto. inversion H; subst. rewrite H2; auto. Qed.

Lemma div_succ_15 (c : Z) :
  0 <= c -> (c + 1) / 15 = c / 15 + (if (c + 1) mod 15 =? 0 then 1 else 0).
Proof.
  intros Hc. pose proof (Z.div_mod c 15 ltac:(lia)) as Hd.
  pose proof (Z.mod_pos_bound c 15 ltac:(lia)) as Hm.
  destruct (Z.eq_dec (c mod 15) 14) as [E|E].
  - assert (M : (c + 1) mod 15 = 0)
      by (symmetry; apply Z.mod_unique with (c / 15 + 1); lia).
    rewrite M. simpl. symmetry. apply Z.div_unique with 0; lia.
  - assert (M : (c + 1) mod 15 = c mod 15 + 1)
      by (symmetry; apply Z.mod_unique with (c / 15); lia).
    rewrite M. destruct (Z.eqb_spec (c mod 15 + 1) 0); [lia|].
    rewrite Z.add_0_r. symmetry. apply Z.div_unique with (c mod 15 + 1); lia.
Qed.

Lemma live_frames_heartbeats (ts : list TickInput) (c : Z) :
  0 <= c ->
  Z.of_nat (List.length (filter is_comment (live_frames c ts))) =
  (c + Z.of_nat (List.length ts)) / 15 - c / 15.
Proof.
  revert c; induction ts as [|t ts IH]; intros c Hc.
  - simpl. rewrite Z.add_0_r. lia.
  - cbn [live_frames]. rewrite !filter_app, !length_app. cbn [filter is_comment].
    rewrite !Nat2Z.inj_add, (IH (c + 1)) by lia. rewrite (div_succ_15 c Hc).
    replace (c + Z.of_nat (List.length (t :: ts))) with (c + 1 + Z.of_nat (List.length ts))
      by (simpl List.length; lia).
    destruct ((c + 1) mod 15 =? 0); cbn [filter is_comment List.length Z.of_nat]; lia.
Qed.

Lemma replay_no_comment (lei : option string) (st : SSEState) :
  filter is_comment (replay lei st) = [].
Proof.
  unfold replay. destruct lei as [s|]; [|reflexivity].
  destruct (String.eqb s ""); [reflexivity|]. destruct (py_int s); [|reflexivity].
  induction (since z (event_history st)) as [|e l IH]; [reflexivity|]. exact IH.
Qed.

Lemma stored_inv_step (st : SSEState) (o : Op) :
  Forall (fun e => ev_type e = "update" /\
                   ud_message (ev_data e) = String.append "Update #" (z_to_str (ev_id e)))
         (event_history st) ->
  Forall (fun e => ev_type e = "update" /\
                   ud_message (ev_data e) = String.append "Update #" (z_to_str (ev_id e)))
         (event_history (apply_op st o)).
Proof.
  intros H. destruct o as [|t]; cbn [apply_op]; [exact H|].
  rewrite tick_history. apply Forall_forall. intros e He.
  apply in_append_event in He as [He|He].
  - eapply Forall_forall in H; [exact H|exact He].
  - subst e. split; reflexivity.
Qed.

(** Python's [int] reads back the decimal text of every non-negative id
    of at most [max_str_digits] digits: the text a client receives on an
    [id:] line parses to the same id. *)
Theorem py_int_z_to_str (z : Z) :
  0 <= z < 10 ^ Z.of_nat max_str_digits -> py_int (z_to_str z) = Some z.
Proof.
  intros [Hz Hlim]. destruct (z_to_str_digits z Hz) as (E & Hf & Hb). rewrite E.
  set (f := Pos.size_nat (Z.to_pos z)) in *.
  destruct (nat_digits_parse f z "" Hf (conj Hz Hb)) as (k & Hk & Hp).
  pose proof (nat_digits_all_digits f z "" Hz (Forall_nil _)) as Hd.
  pose proof (nat_digits_nonempty f z "" Hf) as Hne.
  pose proof (nat_digits_length f z "" max_str_digits ltac:(unfold max_str_digits; lia)
                (conj Hz Hlim)) as Hlen.
  cbn [list_ascii_of_string List.length] in Hlen.
  unfold py_int. rewrite strip_digits by exact Hd.
  destruct (list_ascii_of_string (nat_digits f z "")) as [|c r] eqn:L; [congruence|].
  inversion Hd as [|x y Hc Hr]; subst. apply is_digit_spec in Hc.
  destruct (Nat.eqb_spec (nat_of_ascii c) 43); [lia|].
  destruct (Nat.eqb_spec (nat_of_ascii c) 45); [lia|].
  unfold digit_limit. rewrite (filter_all_true is_digit (c :: r) Hd).
  destruct (Nat.ltb_spec max_str_digits (List.length (c :: r))); [lia|].
  rewrite Hp. simpl. f_equal.
Qed.

Lemma py_int_z_to_str_witness :
  (0 <= 151 < 10 ^ Z.of_nat max_str_digits) /\ py_int (z_to_str 151) = Some 151.
Proof.
  assert (H : 0 <= 151 < 10 ^ Z.of_nat max_str_digits).
  { split; [lia | apply Z.ltb_lt; vm_compute; reflexivity]. }
  split; [exact H|]. apply py_int_z_to_str. exact H.
Defined.

(** A client that reconnects with the decimal text of a non-negative id as
    its [Last-Event-ID] is replayed exactly the retained events after that
    id, in history order. *)
Theorem replay_resumes_after_id (st : SSEState) (c : Z) :
  0 <= c < 10 ^ Z.of_nat max_str_digits ->
  replay (Some (z_to_str c)) st = flat_map replay_frames (since c (event_history st)).
Proof.
  intros Hc0. pose proof (proj1 Hc0) as Hc. unfold replay.
  destruct (String.eqb_spec (z_to_str c) "") as [E|E].
  - destruct (z_to_str_digits c Hc) as (E2 & Hf & _).
    exfalso. apply (nat_digits_nonempty _ c "" Hf). rewrite <- E2, E. reflexivity.
  - rewrite py_int_z_to_str by exact Hc0. reflexivity.
Qed.

Lemma replay_resumes_after_id_witness :
  replay (Some (z_to_str 3)) (run_ops w_ops init)
  = flat_map replay_frames (since 3 (event_history (run_ops w_ops init))).
Proof.
  apply replay_resumes_after_id. split; [lia | apply Z.ltb_lt; vm_compute; reflexivity].
Defined.

(** A session running alone for [n] ticks from a non-negative counter [c]
    yields [(c + 1 + n) / 15 - (c + 1) / 15] keep-alive comments, so
    exactly one in every 15 consecutive ticks. *)
Theorem session_heartbeat_count (lei : option string) (ts : list TickInput) (st : SSEState) :
  0 <= event_id_counter st ->
  Z.of_nat (List.length (filter is_comment (fst (event_generator lei ts st)))) =
    (event_id_counter st + 1 + Z.of_nat (List.length ts)) / 15 - (event_id_counter st + 1) / 15 /\
  (List.length ts = 15%nat ->
   List.length (filter is_comment (fst (event_generator lei ts st))) = 1%nat).
Proof.
  intros Hc.
  assert (E : Z.of_nat (List.length (filter is_comment (fst (event_generator lei ts st)))) =
    (event_id_counter st + 1 + Z.of_nat (List.length ts)) / 15 - (event_id_counter st + 1) / 15).
  { rewrite event_generator_frames, !filter_app, replay_no_comment.
    cbn [filter connected_frames is_comment app]. apply live_frames_heartbeats. lia. }
  split; [exact E|]. intros L. rewrite L in E.
  replace (event_id_counter st + 1 + Z.of_nat 15) with (event_id_counter st + 1 + 1 * 15) in E
    by reflexivity.
  rewrite Z.div_add in E by lia. lia.
Qed.

Lemma session_heartbeat_count_witness :
  List.length (filter is_comment (fst (event_generator None (repeat tk0 15) init))) = 1%nat.
Proof. apply (session_heartbeat_count None (repeat tk0 15) init); reflexivity || lia. Defined.

(** [health_check] reports [active_events = min(appends, 100)] on every
    reachable state, so never more than 100. *)
Theorem health_active_events (ops : list Op) (now : string) :
  h_active_events (health_check (run_ops ops init) now) =
  Nat.min (List.length (appended ops init)) 100 /\
  (h_active_events (health_check (run_ops ops init) now) <= 100)%nat.
Proof.
  unfold health_check. cbn [h_active_events].
  rewrite (run_ops_history ops init) by (simpl; lia). cbn [event_history app].
  unfold lastn. rewrite length_rev, length_firstn, length_rev, Nat.min_comm.
  split; [reflexivity | apply Nat.le_min_r].
Qed.

(** Every stored event is an "update" whose message reads
    ["Update #<its id>"]: connections store nothing and comments never
    reach the history. *)
Theorem stored_events_are_updates (ops : list Op) :
  Forall (fun e => ev_type e = "update" /\
                   ud_message (ev_data e) = String.append "Update #" (z_to_str (ev_id e)))
         (event_history (run_ops ops init)).
Proof.
  assert (G : forall ops st,
    Forall (fun e => ev_type e = "update" /\
                     ud_message (ev_data e) = String.append "Update #" (z_to_str (ev_id e)))
           (event_history st) ->
    Forall (fun e => ev_type e = "update" /\
                     ud_message (ev_data e) = String.append "Update #" (z_to_str (ev_id e)))
           (event_history (run_ops ops st))).
  { induction ops0 as [|o os IH]; intros st H; [exact H|].
    apply IH, stored_inv_step, H. }
  apply G. constructor.
Qed.

(** On every reachable state a cursor at or above the counter replays
    nothing, and a cursor below 1 (for instance negative) replays the
    whole retained history. *)
Theorem since_cursor_edges (ops : list Op) (c : Z) :
  (event_id_counter (run_ops ops init) <= c ->
   since c (event_history (run_ops ops init)) = []) /\
  (c < 1 -> since c (event_history (run_ops ops init)) = event_history (run_ops ops init)).
Proof.
  destruct (log_inv_run ops init log_inv_init) as (_ & _ & Hf). split; intros H.
  - apply filter_drop_all. eapply Forall_impl; [|exact Hf].
    simpl. intros e He. apply Z.ltb_ge. lia.
  - apply filter_keep_all. eapply Forall_impl; [|exact Hf].
    simpl. intros e He. apply Z.ltb_lt. lia.
Qed.

Lemma since_cursor_edges_witness :
  since 3 (event_history (run_ops w_ops init)) = [] /\
  since (-5) (event_history (run_ops w_ops init)) = event_history (run_ops w_ops init).
Proof.
  split.
  - apply (proj1 (since_cursor_edges w_ops 3)). vm_compute. discriminate.
  - apply (proj2 (since_cursor_edges w_ops (-5))). lia.
Defined.

End SSE.

(* ================================================================= *)
(** ** WebSocket: the [ConnectionManager]                              *)
(* ================================================================= *)
Module WS.

(** The JSON text [send_json] writes. *)
Definition Message := string.

(** A transport handle: [send_json] raises once the peer is gone. *)
Record WebSocket := mkWebSocket { ws_open : bool }.

(** [self.active_connections] (a dict, in insertion order) and [self.rooms]
    (a dict of sets; set iteration order is any list order). *)
Record ConnectionManager := mkManager {
  active_connections : list (string * WebSocket);
  rooms : list (string * list string)
}.

(** The observable effect of [send_json]: which client was written to. *)
Inductive Delivery :=
| Delivered (cid : string) (m : Message)
| SendFailed (cid : string) (m : Message).

Definition delivery_target (d : Delivery) : string :=
  match d with Delivered c _ | SendFailed c _ => c end.

(** How an awaited call ends: it returns, or an exception escapes it. *)
Inductive PyResult := Returned | Raised.

Fixpoint dict_get {V} (k : string) (d : list (string * V)) : option V :=
  match d with
  | [] => None
  | (k', v) :: r => if String.eqb k k' then Some v else dict_get k r
  end.

(** [del d[k]] (keys are unique). *)
Definition dict_del {V} (k : string) (d : list (string * V)) : list (string * V) :=
  filter (fun kv => negb (String.eqb k (fst kv))) d.

(** [d[k] = v]: in place when [k] is present, at the end otherwise. *)
Fixpoint dict_set {V} (k : string) (v : V) (d : list (string * V)) : list (string * V) :=
  match d with
  | [] => [(k, v)]
  | (k', v') :: r => if String.eqb k k' then (k', v) :: r else (k', v') :: dict_set k v r
  end.

(** [s.discard(x)] *)
Definition set_discard (x : string) (s : list string) : list string :=
  filter (fun y => negb (String.eqb x y)) s.

(** [await ws.send_json(message)] for client [cid]. *)
Definition send_json (cid : string) (ws : WebSocket) (m : Message) : PyResult * list Delivery :=
  if ws_open ws then (Returned, [Delivered cid m]) else (Raised, [SendFailed cid m]).

(** [disconnect(client_id)], lines 38-45. *)
Definition disconnect (cid : string) (cm : ConnectionManager) : ConnectionManager :=
  mkManager
    (match dict_get cid (active_connections cm) with
     | Some _ => dict_del cid (active_connections cm)
     | None => active_connections cm
     end)
    (map (fun rs => (fst rs, set_discard cid (snd rs))) (rooms cm)).

(** [send_personal_message(message, client_id)], lines 47-50: the result,
    the manager afterwards and the deliveries. *)
Definition send_personal_message (cm : ConnectionManager) (m : Message) (cid : string)
    : PyResult * ConnectionManager * list Delivery :=
  match dict_get cid (active_connections cm) with
  | Some ws => let (r, tr) := send_json cid ws m in (r, cm, tr)
  | None => (Returned, cm, [])
  end.

(** [client_id == exclude] with [exclude] defaulting to [None]. *)
Definition is_excluded (cid : string) (exclude : option string) : bool :=
  match exclude with Some x => String.eqb cid x | None => false end.

(** The loop of [broadcast], lines 56-63: the [disconnected] list it
    collects and the deliveries. *)
Fixpoint broadcast_pass (items : list (string * WebSocket)) (m : Message)
    (exclude : option string) : list string * list Delivery :=
  match items with
  | [] => ([], [])
  | (cid, ws) :: rest =>
      if is_excluded cid exclude then broadcast_pass rest m exclude
      else
        let (r, tr) := send_json cid ws m in
        let (disc, tr') := broadcast_pass rest m exclude in
        ((match r with Raised => [cid] | Returned => [] end) ++ disc, tr ++ tr')
  end.

(** [broadcast(message, exclude)], lines 52-67, when no other coroutine
    changes the manager while a send is suspended ([broadcast_run] below
    is the general case; [broadcast_run_quiet] proves they agree). *)
Definition broadcast (cm : ConnectionManager) (m : Message) (exclude : option string)
    : ConnectionManager * list Delivery :=
  let (disc, tr) := broadcast_pass (active_connections cm) m exclude in
  (fold_left (fun c cid => disconnect cid c) disc cm, tr).

(** The loop of [broadcast_to_room], lines 76-87. *)
Fixpoint room_pass (active : list (string * WebSocket)) (members : list string)
    (m : Message) (exclude : option string) : list string * list Delivery :=
  match members with
  | [] => ([], [])
  | cid :: rest =>
      if is_excluded cid exclude then room_pass active rest m exclude
      else
        match dict_get cid active with
        | None =>
            let (disc, tr) := room_pass active rest m exclude in (cid :: disc, tr)
        | Some ws =>
            let (r, tr) := send_json cid ws m in
            let (disc, tr') := room_pass active rest m exclude in
            ((match r with Raised => [cid] | Returned => [] end) ++ disc, tr ++ tr')
        end
  end.

(** [broadcast_to_room(room, message, exclude)], lines 69-91, when no
    other coroutine changes the manager while a send is suspended
    ([broadcast_to_room_run] below is the general case; [room_run_quiet]
    proves they agree). *)
Definition broadcast_to_room (cm : ConnectionManager) (room : string) (m : Message)
    (exclude : option string) : ConnectionManager * list Delivery :=
  match dict_get room (rooms cm) with
  | None => (cm, [])
  | Some members =>
      let (disc, tr) := room_pass (active_connections cm) members m exclude in
      (mkManager (active_connections cm)
                 (dict_set room (fold_left (fun s cid => set_discard cid s) disc members)
                           (rooms cm)),
       tr)
  end.


(** [connect(websocket)], lines 31-36: after [websocket.accept()] the
    socket is stored under the fresh [str(uuid.uuid4())] passed as [cid]. *)
Definition connect (cm : ConnectionManager) (cid : string) (ws : WebSocket)
    : ConnectionManager :=
  mkManager (dict_set cid ws (active_connections cm)) (rooms cm).

(** [s.add(x)] *)
Definition set_add (x : string) (s : list string) : list string :=
  if existsb (String.eqb x) s then s else s ++ [x].

(** [join_room(client_id, room)], lines 93-97. *)
Definition join_room (cm : ConnectionManager) (cid room : string) : ConnectionManager :=
  let rs := match dict_get room (rooms cm) with
            | None => dict_set room [] (rooms cm)
            | Some _ => rooms cm
            end in
  let members := match dict_get room rs with Some s => s | None => [] end in
  mkManager (active_connections cm) (dict_set room (set_add cid members) rs).

(** [leave_room(client_id, room)], lines 99-102. *)
Definition leave_room (cm : ConnectionManager) (cid room : string) : ConnectionManager :=
  match dict_get room (rooms cm) with
  | Some s => mkManager (active_connections cm) (dict_set room (set_discard cid s) (rooms cm))
  | None => cm
  end.

(** [get_room_count(room)], lines 104-106. *)
Definition get_room_count (cm : ConnectionManager) (room : string) : nat :=
  match dict_get room (rooms cm) with Some s => List.length s | None => 0%nat end.

(** The manager operations the endpoints call, for reasoning about any
    sequence of them. *)
Inductive MgrOp :=
| MConnect (cid : string) (ws : WebSocket)
| MDisconnect (cid : string)
| MJoin (cid room : string)
| MLeave (cid room : string)
| MSend (m : Message) (cid : string)
| MBroadcast (m : Message) (exclude : option string)
| MRoomBroadcast (room : string) (m : Message) (exclude : option string).

Definition apply_mgr (cm : ConnectionManager) (o : MgrOp) : ConnectionManager :=
  match o with
  | MConnect cid ws => connect cm cid ws
  | MDisconnect cid => disconnect cid cm
  | MJoin cid room => join_room cm cid room
  | MLeave cid room => leave_room cm cid room
  | MSend m cid => snd (fst (send_personal_message cm m cid))
  | MBroadcast m ex => fst (broadcast cm m ex)
  | MRoomBroadcast room m ex => fst (broadcast_to_room cm room m ex)
  end.

Definition run_mgr (ops : list MgrOp) (cm : ConnectionManager) : ConnectionManager :=
  fold_left apply_mgr ops cm.

(** [ConnectionManager()]: both dicts empty. *)
Definition empty_manager : ConnectionManager := mkManager [] [].

Definition attempt (m : Message) (kv : string * WebSocket) : list Delivery :=
  snd (send_json (fst kv) (snd kv) m).

(** A member the room broadcast finds dead: not excluded, and either not
    registered or with a failing transport. *)
Definition room_dead (active : list (string * WebSocket)) (exclude : option string)
    (cid : string) : bool :=
  negb (is_excluded cid exclude) &&
  match dict_get cid active with Some ws => negb (ws_open ws) | None => true end.

Definition room_attempt (active : list (string * WebSocket)) (exclude : option string)
    (m : Message) (cid : string) : list Delivery :=
  if is_excluded cid exclude then []
  else match dict_get cid active with Some ws => attempt m (cid, ws) | None => [] end.

(** The targets of a broadcast: the entries not excluded, in dict order. *)
Definition targets (exclude : option string) (items : list (string * WebSocket))
    : list (string * WebSocket) :=
  filter (fun kv => negb (is_excluded (fst kv) exclude)) items.

(** The ids whose transport fails. *)
Definition dead_ids (items : list (string * WebSocket)) : list string :=
  map fst (filter (fun kv => negb (ws_open (snd kv))) items).

Definition disconnect_all (ids : list string) (cm : ConnectionManager) : ConnectionManager :=
  fold_left (fun c cid => disconnect cid c) ids cm.

(** The members of a room: its set, or the empty set when the room is not
    a key of [self.rooms]. *)
Definition members_of (cm : ConnectionManager) (room : string) : list string :=
  match dict_get room (rooms cm) with Some s => s | None => [] end.

(* ----------------------------------------------------------------- *)
(** *** The broadcasts interleaved with other coroutines

    [broadcast] and [broadcast_to_room] suspend at every [await
    connection.send_json(message)], and while one of them is suspended the
    other coroutines of the server run: other sessions connect, leave,
    join and leave rooms, and finish their own broadcasts. The loops of
    lines 56 and 76 iterate the live [self.active_connections] and the
    live set [self.rooms[room]], not copies. The definitions above
    ([broadcast_pass], [broadcast], [room_pass], [broadcast_to_room]) are
    the passes when nothing else runs during their sends; the definitions
    below follow the source with the interleaving, and are equal to them
    in that case ([broadcast_run_quiet], [room_run_quiet]). *)

(** The manager steps another coroutine can take while a broadcast is
    suspended: the synchronous methods and the store of [connect] after
    its [await websocket.accept()]. The cleanup of another room broadcast,
    [self.rooms[room].discard(client_id)], is [SLeave]. *)
Inductive SyncOp :=
| SConnect (cid : string) (ws : WebSocket)
| SDisconnect (cid : string)
| SJoin (cid room : string)
| SLeave (cid room : string).

Definition apply_sync (cm : ConnectionManager) (o : SyncOp) : ConnectionManager :=
  match o with
  | SConnect cid ws => connect cm cid ws
  | SDisconnect cid => disconnect cid cm
  | SJoin cid room => join_room cm cid room
  | SLeave cid room => leave_room cm cid room
  end.

(** The steps other coroutines take during one [await]. *)
Definition run_sync (os : list SyncOp) (cm : ConnectionManager) : ConnectionManager :=
  fold_left apply_sync os cm.

(** The steps taken during a sequence of [await]s, one list per [await]. *)
Definition run_windows (env : list (list SyncOp)) (cm : ConnectionManager) : ConnectionManager :=
  fold_left (fun c os => run_sync os c) env cm.

(** Whether a step inserts or deletes a key of [self.active_connections]
    (storing a new socket under a present id replaces it in place). *)
Definition key_change (cm : ConnectionManager) (o : SyncOp) : bool :=
  match o with
  | SConnect cid _ => match dict_get cid (active_connections cm) with Some _ => false | None => true end
  | SDisconnect cid => match dict_get cid (active_connections cm) with Some _ => true | None => false end
  | _ => false
  end.

Fixpoint keys_changed (os : list SyncOp) (cm : ConnectionManager) : bool :=
  match os with
  | [] => false
  | o :: r => key_change cm o || keys_changed r (apply_sync cm o)
  end.

(** Whether a step adds an element to, or removes one from, the set
    [self.rooms[room]]. *)
Definition member_change (room : string) (cm : ConnectionManager) (o : SyncOp) : bool :=
  let has c := existsb (String.eqb c) (members_of cm room) in
  match o with
  | SConnect _ _ => false
  | SDisconnect cid => has cid
  | SJoin cid r => String.eqb r room && negb (has cid)
  | SLeave cid r => String.eqb r room && has cid
  end.

Fixpoint members_changed (room : string) (os : list SyncOp) (cm : ConnectionManager) : bool :=
  match os with
  | [] => false
  | o :: r => member_change room cm o || members_changed room r (apply_sync cm o)
  end.

(** What [next()] on a dict or set iterator does. *)
Inductive IterStep :=
| IStop             (* [StopIteration]: the loop ends *)
| IRaise            (* [RuntimeError] *)
| IYield (j : nat). (* the entry at position [j] of the live collection *)

(** [next()] on an iterator created over a collection of size [n0] that
    has produced [k] entries, [live] being the collection now. CPython
    first compares the size with [n0] and raises [RuntimeError]
    ("dictionary changed size during iteration", "Set changed size during
    iteration") when they differ. While no element has been added or
    removed the iterator produces the next entry in order. Once elements
    were added and removed without changing the size ([confused]), what it
    produces depends on the layout of the hash table (a re-inserted key
    can come again, a dict can raise "keys changed during iteration"): the
    choices [picks] stand for that layout, and [IStop] is taken when they
    run out. *)
Definition iter_next {A} (live : list A) (n0 k : nat) (confused : bool) (picks : list IterStep)
    : IterStep * list IterStep :=
  if negb (Nat.eqb (List.length live) n0) then (IRaise, picks)
  else if confused then match picks with [] => (IStop, []) | p :: ps => (p, ps) end
  else (IYield k, picks).

(** [for client_id in disconnected: self.rooms[room].discard(client_id)] *)
Definition room_cleanup (room : string) (disc : list string) (cm : ConnectionManager)
    : ConnectionManager :=
  mkManager (active_connections cm)
            (dict_set room (fold_left (fun s cid => set_discard cid s) disc (members_of cm room))
                      (rooms cm)).

Section Interleaved.

Variable m : Message.
Variable exclude : option string.

(** The loop of [broadcast], lines 56-63, from its [k]-th [next()], then
    lines 65-67. [env] lists the steps other coroutines take during each
    [await send_json], [disc] is [disconnected]. [fuel] only bounds the
    recursion: each round uses up a position below [n0] or a choice of
    [picks], so [S (n0 + length picks)] rounds always suffice. *)
Fixpoint bcast_loop (fuel n0 k : nat) (confused : bool) (env : list (list SyncOp))
    (picks : list IterStep) (cm : ConnectionManager) (disc : list string)
    : PyResult * ConnectionManager * list Delivery :=
  match fuel with
  | O => (Returned, disconnect_all disc cm, [])
  | S fuel =>
      let (step, picks) := iter_next (active_connections cm) n0 k confused picks in
      match step with
      | IRaise => (Raised, cm, [])
      | IStop => (Returned, disconnect_all disc cm, [])
      | IYield j =>
          match nth_error (active_connections cm) j with
          | None => (Returned, disconnect_all disc cm, [])
          | Some (cid, ws) =>
              if is_excluded cid exclude then bcast_loop fuel n0 (S k) confused env picks cm disc
              else
                let (r, tr) := send_json cid ws m in
                let os := hd [] env in
                let '(res, cm', tr') :=
                  bcast_loop fuel n0 (S k) (confused || keys_changed os cm) (tl env) picks
                    (run_sync os cm) (disc ++ match r with Raised => [cid] | Returned => [] end) in
                (res, cm', tr ++ tr')
          end
      end
  end.

(** [broadcast(message, exclude)], lines 52-67, with the steps [env] of
    the other coroutines: whether an exception escapes, the manager
    afterwards and the deliveries. *)
Definition broadcast_run (cm : ConnectionManager) (env : list (list SyncOp))
    (picks : list IterStep) : PyResult * ConnectionManager * list Delivery :=
  let n0 := List.length (active_connections cm) in
  bcast_loop (S (n0 + List.length picks)) n0 0 false env picks cm [].

Variable room : string.

(** The loop of [broadcast_to_room], lines 76-87, over the live set
    [self.rooms[room]] (a room is never removed from [self.rooms]), then
    lines 89-91. *)
Fixpoint room_loop (fuel n0 k : nat) (confused : bool) (env : list (list SyncOp))
    (picks : list IterStep) (cm : ConnectionManager) (disc : list string)
    : PyResult * ConnectionManager * list Delivery :=
  match fuel with
  | O => (Returned, room_cleanup room disc cm, [])
  | S fuel =>
      let (step, picks) := iter_next (members_of cm room) n0 k confused picks in
      match step with
      | IRaise => (Raised, cm, [])
      | IStop => (Returned, room_cleanup room disc cm, [])
      | IYield j =>
          match nth_error (members_of cm room) j with
          | None => (Returned, room_cleanup room disc cm, [])
          | Some cid =>
              if is_excluded cid exclude then room_loop fuel n0 (S k) confused env picks cm disc
              else
                match dict_get cid (active_connections cm) with
                | None => room_loop fuel n0 (S k) confused env picks cm (disc ++ [cid])
                | Some ws =>
                    let (r, tr) := send_json cid ws m in
                    let os := hd [] env in
                    let '(res, cm', tr') :=
                      room_loop fuel n0 (S k) (confused || members_changed room os cm) (tl env)
                        picks (run_sync os cm)
                        (disc ++ match r with Raised => [cid] | Returned => [] end) in
                    (res, cm', tr ++ tr')
                end
          end
      end
  end.

(** [broadcast_to_room(room, message, exclude)], lines 69-91, with the
    steps [env] of the other coroutines. *)
Definition broadcast_to_room_run (cm : ConnectionManager) (env : list (list SyncOp))
    (picks : list IterStep) : PyResult * ConnectionManager * list Delivery :=
  match dict_get room (rooms cm) with
  | None => (Returned, cm, [])
  | Some members =>
      let n0 := List.length members in
      room_loop (S (n0 + List.length picks)) n0 0 false env picks cm []
  end.

End Interleaved.

(** The ids whose send failed, in the order of the deliveries. *)
Definition failed_ids (tr : list Delivery) : list string :=
  flat_map (fun d => match d with SendFailed c _ => [c] | Delivered _ _ => [] end) tr.

(* ----------------------------------------------------------------- *)
(** *** Lemmas about the registry and the broadcast loop *)

Lemma broadcast_pass_spec (items : list (string * WebSocket)) (m : Message)
    (exclude : option string) :
  broadcast_pass items m exclude =
  (dead_ids (targets exclude items), flat_map (attempt m) (targets exclude items)).
Proof.
  induction items as [|[cid ws] rest IH]; [reflexivity|].
  cbn [broadcast_pass]. unfold targets at 1 2. cbn [filter fst snd].
  destruct (is_excluded cid exclude); cbn [negb]; [exact IH|].
  rewrite IH. unfold dead_ids, attempt, send_json. cbn [filter map flat_map fst snd].
  destruct (ws_open ws); reflexivity.
Qed.

Lemma dict_get_none (k : string) (d : list (string * WebSocket)) :
  dict_get k d = None <-> ~ In k (map fst d).
Proof.
  induction d as [|[k' v] d IH]; simpl; [tauto|].
  destruct (String.eqb_spec k k') as [E|E]; [subst; split; [discriminate|tauto]|].
  rewrite IH. intuition congruence.
Qed.

Lemma disconnect_removes (cid : string) (cm : ConnectionManager) :
  dict_get cid (active_connections (disconnect cid cm)) = None.
Proof.
  unfold disconnect; cbn [active_connections].
  destruct (dict_get cid (active_connections cm)) eqn:E; [|exact E].
  apply dict_get_none. unfold dict_del. rewrite in_map_iff.
  intros ([k v] & Hk & Hin). apply filter_In in Hin as [_ Hn]. simpl in *.
  subst. rewrite String.eqb_refl in Hn. discriminate.
Qed.

Lemma disconnect_keeps_absent (k cid : string) (cm : ConnectionManager) :
  dict_get k (active_connections cm) = None ->
  dict_get k (active_connections (disconnect cid cm)) = None.
Proof.
  intros H. unfold disconnect; cbn [active_connections].
  destruct (dict_get cid (active_connections cm)); [|exact H].
  apply dict_get_none. apply dict_get_none in H. intros Hin. apply H.
  unfold dict_del in Hin. rewrite in_map_iff in Hin |- *.
  destruct Hin as (kv & Hk & Hin). apply filter_In in Hin. exists kv; tauto.
Qed.

Lemma disconnect_all_keeps_absent (k : string) (ids : list string) (cm : ConnectionManager) :
  dict_get k (active_connections cm) = None ->
  dict_get k (active_connections (disconnect_all ids cm)) = None.
Proof.
  revert cm; induction ids as [|j ids IH]; intros cm H; [exact H|].
  change (disconnect_all (j :: ids) cm) with (disconnect_all ids (disconnect j cm)).
  apply IH, disconnect_keeps_absent, H.
Qed.

Lemma disconnect_all_removes (k : string) (ids : list string) (cm : ConnectionManager) :
  In k ids -> dict_get k (active_connections (disconnect_all ids cm)) = None.
Proof.
  revert cm; induction ids as [|j ids IH]; intros cm H; [destruct H|].
  change (disconnect_all (j :: ids) cm) with (disconnect_all ids (disconnect j cm)).
  destruct H as [<-|H].
  - apply disconnect_all_keeps_absent, disconnect_removes.
  - apply IH, H.
Qed.

Lemma NoDup_fst_filter (p : string * WebSocket -> bool) (items : list (string * WebSocket)) :
  NoDup (map fst items) -> NoDup (map fst (filter p items)).
Proof.
  induction items as [|kv items IH]; simpl; intros H; [constructor|].
  inversion H as [|x l Hn Hd]; subst.
  destruct (p kv); simpl; [|auto].
  constructor; [|auto]. intros Hin. apply Hn.
  rewrite in_map_iff in Hin |- *. destruct Hin as (y & Hy & Hin).
  apply filter_In in Hin. exists y; tauto.
Qed.

Lemma broadcast_trace (cm : ConnectionManager) (m : Message) (exclude : option string) :
  snd (broadcast cm m exclude) = flat_map (attempt m) (targets exclude (active_connections cm)).
Proof. unfold broadcast. rewrite broadcast_pass_spec. reflexivity. Qed.

Lemma broadcast_state (cm : ConnectionManager) (m : Message) (exclude : option string) :
  fst (broadcast cm m exclude) =
  disconnect_all (dead_ids (targets exclude (active_connections cm))) cm.
Proof. unfold broadcast. rewrite broadcast_pass_spec. reflexivity. Qed.

Lemma broadcast_delivers (cm : ConnectionManager) (m : Message) (exclude : option string)
    (cid : string) (ws : WebSocket) :
  In (cid, ws) (active_connections cm) -> is_excluded cid exclude = false ->
  ws_open ws = true -> In (Delivered cid m) (snd (broadcast cm m exclude)).
Proof.
  intros Hin Hx Ho. rewrite broadcast_trace. apply in_flat_map.
  exists (cid, ws). split.
  - apply filter_In. simpl. rewrite Hx. auto.
  - unfold attempt, send_json. simpl. rewrite Ho. left; reflexivity.
Qed.


(* ----------------------------------------------------------------- *)
(** *** Lemmas about the interleaved broadcasts *)

Lemma skipn_nth_error {A} (l : list A) (k : nat) (x : A) :
  nth_error l k = Some x -> skipn k l = x :: skipn (S k) l.
Proof.
  revert l; induction k as [|k IH]; intros [|y l] H; cbn in *; try discriminate.
  - injection H as ->. reflexivity.
  - apply IH, H.
Qed.

Lemma skipn_nth_error_none {A} (l : list A) (k : nat) :
  nth_error l k = None -> skipn k l = [].
Proof.
  revert l; induction k as [|k IH]; intros [|y l] H; cbn in *; try discriminate; auto.
Qed.

Lemma iter_next_cases {A} (live : list A) (n0 k : nat) (c : bool) (picks : list IterStep)
    (step : IterStep) (picks' : list IterStep) :
  iter_next live n0 k c picks = (step, picks') ->
  (step = IRaise /\ List.length live <> n0 /\ picks' = picks) \/
  (List.length live = n0 /\
   ((c = false /\ step = IYield k /\ picks' = picks) \/
    (c = true /\ ((picks = [] /\ step = IStop /\ picks' = []) \/ picks = step :: picks')))).
Proof.
  unfold iter_next. destruct (Nat.eqb_spec (List.length live) n0) as [E|E]; cbn [negb].
  - destruct c.
    + destruct picks as [|p ps]; intros H; injection H as <- <-;
        right; (split; [exact E|right; split; [reflexivity|]]).
      * left; auto.
      * right; reflexivity.
    + intros H; injection H as <- <-. right. split; [exact E|]. left. auto.
  - intros H; injection H as <- <-. left. auto.
Qed.

(** The measure that [fuel] must exceed: the positions still to come while
    the iteration is in order, and the choices left. *)
Definition iter_measure (n0 k : nat) (confused : bool) (picks : list IterStep) : nat :=
  ((if confused then 0 else n0 - k) + List.length picks)%nat.

Lemma iter_measure_step {A} (live : list A) (n0 k : nat) (c c' : bool) (picks picks' : list IterStep)
    (j : nat) (x : A) (fuel : nat) :
  iter_next live n0 k c picks = (IYield j, picks') ->
  nth_error live j = Some x ->
  (iter_measure n0 k c picks < S fuel)%nat ->
  (c = true -> c' = true) ->
  (iter_measure n0 (S k) c' picks' < fuel)%nat.
Proof.
  intros En Ej Hm Hc. unfold iter_measure in *.
  apply iter_next_cases in En as [(? & _)|(Hl & [(-> & Hy & ->)|(-> & [(_ & ? & _)| ->])])];
    try discriminate.
  - injection Hy as <-. assert (j < List.length live)%nat by (apply nth_error_Some; congruence).
    destruct c'; lia.
  - rewrite (Hc eq_refl) in *. cbn [List.length] in Hm. lia.
Qed.

Lemma run_windows_firstn_S (env : list (list SyncOp)) (n : nat) (cm : ConnectionManager) :
  run_windows (firstn (S n) env) cm = run_windows (firstn n (tl env)) (run_sync (hd [] env) cm).
Proof. destruct env as [|os env]; [destruct n; reflexivity|reflexivity]. Qed.

Lemma bcast_loop_quiet (m : Message) (ex : option string) (fuel k : nat)
    (picks : list IterStep) (cm : ConnectionManager) (disc : list string) :
  (List.length (active_connections cm) - k < fuel)%nat ->
  bcast_loop m ex fuel (List.length (active_connections cm)) k false [] picks cm disc =
  (Returned,
   disconnect_all (disc ++ fst (broadcast_pass (skipn k (active_connections cm)) m ex)) cm,
   snd (broadcast_pass (skipn k (active_connections cm)) m ex)).
Proof.
  revert k disc; induction fuel as [|fuel IH]; intros k disc Hf; [lia|].
  cbn [bcast_loop]. unfold iter_next. rewrite Nat.eqb_refl. cbn [negb].
  destruct (nth_error (active_connections cm) k) as [[cid ws]|] eqn:E.
  - assert (Hk : (k < List.length (active_connections cm))%nat)
      by (apply nth_error_Some; congruence).
    rewrite (skipn_nth_error _ _ _ E). cbn [broadcast_pass].
    destruct (is_excluded cid ex).
    + apply IH. lia.
    + unfold send_json. destruct (ws_open ws);
        cbn [hd tl keys_changed run_sync fold_left orb]; rewrite IH by lia;
        destruct (broadcast_pass (skipn (S k) (active_connections cm)) m ex) as [d tr];
        cbn [fst snd]; rewrite <- app_assoc; reflexivity.
  - rewrite (skipn_nth_error_none _ _ E). cbn. rewrite app_nil_r. reflexivity.
Qed.

(** With no other coroutine acting during its sends, [broadcast_run] is
    the pass [broadcast] and returns. *)
Lemma broadcast_run_quiet (cm : ConnectionManager) (m : Message) (ex : option string)
    (picks : list IterStep) :
  broadcast_run m ex cm [] picks = (Returned, fst (broadcast cm m ex), snd (broadcast cm m ex)).
Proof.
  unfold broadcast_run. rewrite bcast_loop_quiet by lia. cbn [skipn app].
  unfold broadcast. destruct (broadcast_pass (active_connections cm) m ex). reflexivity.
Qed.

Lemma bcast_loop_excludes (m : Message) (x : string) (fuel n0 k : nat) (c : bool)
    (env : list (list SyncOp)) (picks : list IterStep) (cm : ConnectionManager)
    (disc : list string) :
  Forall (fun d => delivery_target d <> x) (snd (bcast_loop m (Some x) fuel n0 k c env picks cm disc)).
Proof.
  revert n0 k c env picks cm disc; induction fuel as [|fuel IH]; intros n0 k c env picks cm disc;
    [constructor|].
  cbn [bcast_loop]. destruct (iter_next _ _ _ _ _) as [step picks'].
  destruct step as [| |j]; [constructor|constructor|].
  destruct (nth_error (active_connections cm) j) as [[cid ws]|]; [|constructor].
  destruct (is_excluded cid (Some x)) eqn:Ex; [apply IH|].
  unfold is_excluded in Ex. apply String.eqb_neq in Ex.
  unfold send_json. destruct (ws_open ws);
  match goal with |- context [bcast_loop m (Some x) fuel n0 (S k) ?c2 ?e2 picks' ?cm2 ?d2] =>
    specialize (IH n0 (S k) c2 e2 picks' cm2 d2);
    destruct (bcast_loop m (Some x) fuel n0 (S k) c2 e2 picks' cm2 d2) as [[r' cm'] tr'] end;
  cbn [snd] in *; apply Forall_app; split; try exact IH; repeat constructor; exact Ex.
Qed.

Lemma bcast_loop_state (m : Message) (ex : option string) (fuel n0 k : nat) (c : bool)
    (env : list (list SyncOp)) (picks : list IterStep) (cm : ConnectionManager)
    (disc : list string) :
  (iter_measure n0 k c picks < fuel)%nat ->
  match bcast_loop m ex fuel n0 k c env picks cm disc with
  | (Raised, cm', tr) => cm' = run_windows (firstn (List.length tr) env) cm
  | (Returned, cm', tr) =>
      cm' = disconnect_all (disc ++ failed_ids tr) (run_windows (firstn (List.length tr) env) cm) /\
      List.length (active_connections (run_windows (firstn (List.length tr) env) cm)) = n0
  end.
Proof.
  revert n0 k c env picks cm disc; induction fuel as [|fuel IH];
    intros n0 k c env picks cm disc Hm; [lia|].
  cbn [bcast_loop]. destruct (iter_next _ _ _ _ _) as [step picks'] eqn:En.
  pose proof (iter_next_cases _ _ _ _ _ _ _ En) as Hc.
  assert (Hstop : step <> IRaise ->
    disconnect_all disc cm = disconnect_all (disc ++ failed_ids []) (run_windows (firstn 0 env) cm) /\
    List.length (active_connections (run_windows (firstn 0 env) cm)) = n0).
  { intros Hs. cbn. rewrite app_nil_r. split; [reflexivity|].
    destruct Hc as [(? & _)|(Hl & _)]; [contradiction|exact Hl]. }
  destruct step as [| |j]; [apply Hstop; discriminate|reflexivity|].
  destruct (nth_error (active_connections cm) j) as [[cid ws]|] eqn:Ej;
    [|apply Hstop; discriminate].
  destruct (is_excluded cid ex).
  - apply IH. eapply iter_measure_step; eauto.
  - unfold send_json. destruct (ws_open ws);
    match goal with |- context [bcast_loop m ex fuel n0 (S k) ?c2 ?e2 picks' ?cm2 ?d2] =>
      assert (Hm2 : (iter_measure n0 (S k) c2 picks' < fuel)%nat)
        by (eapply iter_measure_step; eauto; intros ->; reflexivity);
      specialize (IH n0 (S k) c2 e2 picks' cm2 d2 Hm2);
      destruct (bcast_loop m ex fuel n0 (S k) c2 e2 picks' cm2 d2) as [[r' cm'] tr'] end;
    cbn [List.length app]; rewrite run_windows_firstn_S; destruct r';
      unfold failed_ids in *; cbn [flat_map app] in *;
      rewrite ?app_nil_r in IH; rewrite <- ?app_assoc in IH; cbn [app] in IH; exact IH.
Qed.

Lemma bcast_loop_fuel (m : Message) (ex : option string) (f1 f2 n0 k : nat) (c : bool)
    (env : list (list SyncOp)) (picks : list IterStep) (cm : ConnectionManager)
    (disc : list string) :
  (iter_measure n0 k c picks < f1)%nat -> (iter_measure n0 k c picks < f2)%nat ->
  bcast_loop m ex f1 n0 k c env picks cm disc = bcast_loop m ex f2 n0 k c env picks cm disc.
Proof.
  revert f2 n0 k c env picks cm disc; induction f1 as [|f1 IH];
    intros [|f2] n0 k c env picks cm disc H1 H2; try lia.
  cbn [bcast_loop]. destruct (iter_next _ _ _ _ _) as [step picks'] eqn:En.
  destruct step as [| |j]; try reflexivity.
  destruct (nth_error (active_connections cm) j) as [[cid ws]|] eqn:Ej; [|reflexivity].
  destruct (is_excluded cid ex).
  - apply IH; eapply iter_measure_step; eauto.
  - unfold send_json. destruct (ws_open ws);
      (rewrite (IH f2); [reflexivity| |]; eapply iter_measure_step; eauto; intros ->; reflexivity).
Qed.


Definition ws_up : WebSocket := mkWebSocket true.
Definition ws_down : WebSocket := mkWebSocket false.

(** Scenario D: five connections, the transport of "c3" fails. *)
Definition cm_five : ConnectionManager :=
  mkManager [("c1", ws_up); ("c2", ws_up); ("c3", ws_down); ("c4", ws_up); ("c5", ws_up)] [].

(** "a" has a failed transport and is in rooms "lobby" and "other". *)
Definition cm_rooms : ConnectionManager :=
  mkManager [("a", ws_down); ("b", ws_up)] [("lobby", ["a"; "b"]); ("other", ["a"])].

(* ----------------------------------------------------------------- *)
(** *** Claims about the connection manager *)

(** C2 (code defect): a room broadcast whose send to "a" fails discards
    "a" from that room only; "a" stays in [active_connections] and in the
    room "other", whereas the global [broadcast] unregisters it. *)
Theorem C2_room_broadcast_keeps_dead_registered :
  broadcast_to_room cm_rooms "lobby" "hi" None =
    (mkManager [("a", ws_down); ("b", ws_up)] [("lobby", ["b"]); ("other", ["a"])],
     [SendFailed "a" "hi"; Delivered "b" "hi"]) /\
  dict_get "a" (active_connections (fst (broadcast_to_room cm_rooms "lobby" "hi" None)))
    = Some ws_down /\
  dict_get "a" (active_connections (fst (broadcast cm_rooms "hi" None))) = None.
Proof. repeat split; vm_compute; reflexivity. Qed.

(** C4 (code defect): the loop of [broadcast] iterates the live
    [self.active_connections], not a snapshot. When nothing else runs
    during its sends, it attempts one delivery to every non-excluded
    connection, in order, collects the failed ids and unregisters them
    after the loop, so they are absent afterwards. But when another
    coroutine adds or removes a connection while a send is suspended, the
    next iteration raises [RuntimeError]: in Scenario D, if the failing
    "c3" is unregistered by its own session (or a sixth client connects)
    during the send to "c3", "c4" and "c5" get no delivery attempt, and
    with the connect the dead "c3" is never unregistered. *)
Theorem C4_broadcast_live_iteration :
  (forall (cm : ConnectionManager) (m : Message) (ex : option string) (picks : list IterStep),
     let tg := targets ex (active_connections cm) in
     broadcast_run m ex cm [] picks =
       (Returned, disconnect_all (dead_ids tg) cm, flat_map (attempt m) tg) /\
     (forall cid, In cid (dead_ids tg) ->
        dict_get cid (active_connections (disconnect_all (dead_ids tg) cm)) = None)) /\
  broadcast_run "hi" None cm_five [[]; []; [SDisconnect "c3"]] [] =
    (Raised, disconnect "c3" cm_five,
     [Delivered "c1" "hi"; Delivered "c2" "hi"; SendFailed "c3" "hi"]) /\
  broadcast_run "hi" None cm_five [[]; []; [SConnect "c6" ws_up]] [] =
    (Raised, connect cm_five "c6" ws_up,
     [Delivered "c1" "hi"; Delivered "c2" "hi"; SendFailed "c3" "hi"]) /\
  dict_get "c3" (active_connections (connect cm_five "c6" ws_up)) = Some ws_down.
Proof.
  split; [|repeat split; vm_compute; reflexivity].
  intros cm m ex picks tg. subst tg. rewrite broadcast_run_quiet. split.
  - rewrite broadcast_state, broadcast_trace. reflexivity.
  - intros cid Hin. apply disconnect_all_removes, Hin.
Qed.

(** C6 (code defect): with [exclude = Some x] no interleaving ever makes a
    delivery attempt to [x]; with no exclusion, when nothing else runs
    during the sends, every registered connection whose transport works,
    the sender included, receives the message. But the loop iterates the
    live dict: when a client connects while the first send is suspended,
    the pass raises [RuntimeError] and the sender "c5", registered with a
    working transport at the call, never receives its own message. *)
Theorem C6_broadcast_exclude_and_self_delivery :
  (forall (cm : ConnectionManager) (m : Message) (x : string) (env : list (list SyncOp))
          (picks : list IterStep),
     Forall (fun d => delivery_target d <> x) (snd (broadcast_run m (Some x) cm env picks))) /\
  (forall (cm : ConnectionManager) (m : Message) (picks : list IterStep) (cid : string)
          (ws : WebSocket),
     In (cid, ws) (active_connections cm) -> ws_open ws = true ->
     In (Delivered cid m) (snd (broadcast_run m None cm [] picks))) /\
  broadcast_run "hi" None cm_five [[SConnect "c6" ws_up]] [] =
    (Raised, connect cm_five "c6" ws_up, [Delivered "c1" "hi"]).
Proof.
  split; [|split].
  - intros cm m x env picks. apply bcast_loop_excludes.
  - intros cm m picks cid ws Hin Ho. rewrite broadcast_run_quiet. cbn [snd].
    apply (broadcast_delivers cm m None cid ws Hin eq_refl Ho).
  - vm_compute. reflexivity.
Qed.

(** C8 (as amended): [send_personal_message] never changes the manager; an
    exception escapes it exactly when the id is registered and its
    transport fails (otherwise it returns [None]). *)
Theorem C8_personal_send_raises_without_cleanup (cm : ConnectionManager) (m : Message)
    (cid : string) :
  snd (fst (send_personal_message cm m cid)) = cm /\
  (fst (fst (send_personal_message cm m cid)) = Raised <->
   exists ws, dict_get cid (active_connections cm) = Some ws /\ ws_open ws = false).
Proof.
  unfold send_personal_message.
  destruct (dict_get cid (active_connections cm)) as [ws|] eqn:E.
  - unfold send_json. destruct (ws_open ws) eqn:Ho; simpl; split; auto; split; auto.
    + discriminate.
    + intros (w & Hw & Hf). injection Hw as <-. congruence.
    + intros _. exists ws; auto.
  - simpl. split; auto. split; [discriminate|]. intros (w & Hw & _). discriminate.
Qed.

(** C8 refuted: a personal send to "a", whose transport fails, raises
    through its caller instead of reporting a result. *)
Lemma C8_personal_send_raises :
  fst (fst (send_personal_message cm_rooms "hi" "a")) = Raised.
Proof. reflexivity. Qed.

(* ----------------------------------------------------------------- *)
(** *** The rest of the connection manager *)

Lemma dict_set_keys_in {V} (k : string) (v : V) (d : list (string * V)) (x : string) :
  In x (map fst (dict_set k v d)) -> x = k \/ In x (map fst d).
Proof.
  induction d as [|[k' v'] d IH]; simpl; intros H.
  - destruct H as [H|[]]; auto.
  - destruct (String.eqb_spec k k'); simpl in H; destruct H as [H|H]; auto.
    destruct (IH H); auto.
Qed.

Lemma dict_set_nodup {V} (k : string) (v : V) (d : list (string * V)) :
  NoDup (map fst d) -> NoDup (map fst (dict_set k v d)).
Proof.
  induction d as [|[k' v'] d IH]; simpl; intros H.
  - repeat constructor. simpl; tauto.
  - inversion H as [|x l Hn Hd]; subst.
    destruct (String.eqb_spec k k'); simpl; constructor; auto.
    intros Hin. apply dict_set_keys_in in Hin as [E|E]; [congruence|tauto].
Qed.

Lemma dict_set_forall {V} (P : V -> Prop) (k : string) (v : V) (d : list (string * V)) :
  Forall (fun kv => P (snd kv)) d -> P v -> Forall (fun kv => P (snd kv)) (dict_set k v d).
Proof.
  induction d as [|[k' v'] d IH]; simpl; intros H Hv; [auto|].
  inversion H; subst. destruct (String.eqb k k'); constructor; auto.
Qed.

Lemma dict_get_in {V} (k : string) (v : V) (d : list (string * V)) :
  dict_get k d = Some v -> In (k, v) d.
Proof.
  induction d as [|[k' v'] d IH]; simpl; [discriminate|].
  destruct (String.eqb_spec k k'); [intros H; injection H as <-; subst; auto|auto].
Qed.

Lemma dict_get_set_same {V} (k : string) (v : V) (d : list (string * V)) :
  dict_get k (dict_set k v d) = Some v.
Proof.
  induction d as [|[k' v'] d IH]; simpl; [rewrite String.eqb_refl; reflexivity|].
  destruct (String.eqb_spec k k') as [E|E]; simpl.
  - subst; rewrite String.eqb_refl; reflexivity.
  - apply String.eqb_neq in E. rewrite E. exact IH.
Qed.

Lemma dict_get_set_other {V} (k k2 : string) (v : V) (d : list (string * V)) :
  k2 <> k -> dict_get k2 (dict_set k v d) = dict_get k2 d.
Proof.
  intros Hne. induction d as [|[k' v'] d IH]; simpl.
  - apply String.eqb_neq in Hne. rewrite Hne. reflexivity.
  - destruct (String.eqb_spec k k') as [E|E]; simpl.
    + subst. apply String.eqb_neq in Hne. rewrite Hne. reflexivity.
    + rewrite IH. reflexivity.
Qed.

Lemma dict_set_get_id {V} (k : string) (v : V) (d : list (string * V)) :
  dict_get k d = Some v -> dict_set k v d = d.
Proof.
  induction d as [|[k' v'] d IH]; simpl; [discriminate|].
  destruct (String.eqb k k'); [intros H; injection H as ->; reflexivity|].
  intros H. rewrite (IH H). reflexivity.
Qed.

Lemma existsb_eqb_in (x : string) (s : list string) :
  existsb (String.eqb x) s = true <-> In x s.
Proof.
  rewrite existsb_exists. split.
  - intros (y & Hy & E). apply String.eqb_eq in E. subst; exact Hy.
  - intros H. exists x. split; [exact H|apply String.eqb_refl].
Qed.

Lemma set_add_in (x : string) (s : list string) : In x (set_add x s).
Proof.
  unfold set_add. destruct (existsb (String.eqb x) s) eqn:E.
  - apply existsb_eqb_in, E.
  - apply in_or_app. right; left; reflexivity.
Qed.

Lemma set_add_nodup (x : string) (s : list string) : NoDup s -> NoDup (set_add x s).
Proof.
  intros H. unfold set_add. destruct (existsb (String.eqb x) s) eqn:E; [exact H|].
  apply NoDup_app; [exact H|repeat constructor; simpl; tauto|].
  intros a Ha [<-|[]]. apply (proj2 (existsb_eqb_in x s)) in Ha. congruence.
Qed.

Lemma set_add_length (x : string) (s : list string) :
  List.length (set_add x s) =
  (List.length s + if existsb (String.eqb x) s then 0 else 1)%nat.
Proof.
  unfold set_add. destruct (existsb (String.eqb x) s).
  - rewrite Nat.add_0_r. reflexivity.
  - rewrite length_app. reflexivity.
Qed.

Lemma set_add_idem (x : string) (s : list string) : set_add x (set_add x s) = set_add x s.
Proof.
  unfold set_add at 1. pose proof (set_add_in x s) as H.
  apply existsb_eqb_in in H. rewrite H. reflexivity.
Qed.

Lemma set_discard_not_in (x : string) (s : list string) : ~ In x (set_discard x s).
Proof.
  unfold set_discard. intros H. apply filter_In in H as [_ H].
  rewrite String.eqb_refl in H. discriminate.
Qed.

Lemma filter_idem {A} (p : A -> bool) (l : list A) : filter p (filter p l) = filter p l.
Proof.
  induction l as [|a l IH]; simpl; [reflexivity|].
  destruct (p a) eqn:E; simpl; [rewrite E, IH|]; auto.
Qed.

Lemma filter_filter_and {A} (p q : A -> bool) (l : list A) :
  filter p (filter q l) = filter (fun x => q x && p x) l.
Proof.
  induction l as [|a l IH]; simpl; [reflexivity|].
  destruct (q a); simpl; [destruct (p a); simpl|]; rewrite IH; reflexivity.
Qed.

Lemma fold_discard (ds s : list string) :
  fold_left (fun s cid => set_discard cid s) ds s =
  filter (fun x => negb (existsb (String.eqb x) ds)) s.
Proof.
  revert s; induction ds as [|d ds IH]; intros s; simpl.
  - induction s as [|a s IHs]; simpl; [reflexivity|]. rewrite <- IHs. reflexivity.
  - rewrite IH. unfold set_discard. rewrite filter_filter_and.
    apply filter_ext. intros x. rewrite String.eqb_sym.
    destruct (String.eqb x d); reflexivity.
Qed.

Lemma dict_get_del_other {V} (k cid : string) (d : list (string * V)) :
  k <> cid -> dict_get k (dict_del cid d) = dict_get k d.
Proof.
  intros Hne. unfold dict_del.
  induction d as [|[k' v'] d IH]; simpl; [reflexivity|].
  destruct (String.eqb_spec cid k') as [E|E]; simpl.
  - subst. apply String.eqb_neq in Hne. rewrite Hne. exact IH.
  - rewrite IH. reflexivity.
Qed.

Lemma dict_get_map_snd (f : list string -> list string) (r : string)
    (d : list (string * list string)) :
  dict_get r (map (fun rs => (fst rs, f (snd rs))) d) = option_map f (dict_get r d).
Proof.
  induction d as [|[k v] d IH]; simpl; [reflexivity|].
  destruct (String.eqb r k); [reflexivity|exact IH].
Qed.

Lemma room_pass_spec (active : list (string * WebSocket)) (members : list string)
    (m : Message) (exclude : option string) :
  room_pass active members m exclude =
  (filter (room_dead active exclude) members,
   flat_map (room_attempt active exclude m) members).
Proof.
  induction members as [|cid rest IH]; [reflexivity|].
  cbn [room_pass filter flat_map]. unfold room_dead at 1, room_attempt at 1.
  destruct (is_excluded cid exclude); cbn [negb andb]; [exact IH|].
  destruct (dict_get cid active) as [ws|]; rewrite IH; [|reflexivity].
  unfold attempt, send_json; cbn [fst snd]. destruct (ws_open ws); reflexivity.
Qed.

Lemma send_personal_state (cm : ConnectionManager) (m : Message) (cid : string) :
  snd (fst (send_personal_message cm m cid)) = cm.
Proof.
  unfold send_personal_message.
  destruct (dict_get cid (active_connections cm)) as [ws|]; [|reflexivity].
  unfold send_json. destruct (ws_open ws); reflexivity.
Qed.

Lemma join_room_rooms (cm : ConnectionManager) (cid room : string) :
  exists rs, rooms (join_room cm cid room) = dict_set room (set_add cid (members_of cm room)) rs /\
    dict_get room rs = Some (members_of cm room) /\
    (forall r, r <> room -> dict_get r rs = dict_get r (rooms cm)) /\
    (NoDup (map fst (rooms cm)) -> NoDup (map fst rs)) /\
    (Forall (fun kv => NoDup (snd kv)) (rooms cm) -> Forall (fun kv => NoDup (snd kv)) rs).
Proof.
  unfold join_room, members_of; cbn [rooms].
  destruct (dict_get room (rooms cm)) as [s|] eqn:E.
  - exists (rooms cm). rewrite E. repeat split; auto.
  - exists (dict_set room [] (rooms cm)). rewrite dict_get_set_same.
    repeat split; auto.
    + intros r Hr. apply dict_get_set_other, Hr.
    + apply dict_set_nodup.
    + intros H. apply dict_set_forall; [exact H|constructor].
Qed.

(** [disconnect(client_id)] unregisters the client, leaves every other
    registration as it was, keeps every room (with the client discarded
    from it, so the client is in no room afterwards), and a second call
    changes nothing. *)
Theorem disconnect_cleans (cm : ConnectionManager) (cid : string) :
  dict_get cid (active_connections (disconnect cid cm)) = None /\
  (forall k, k <> cid ->
     dict_get k (active_connections (disconnect cid cm)) = dict_get k (active_connections cm)) /\
  (forall r, dict_get r (rooms (disconnect cid cm)) =
             option_map (set_discard cid) (dict_get r (rooms cm))) /\
  Forall (fun rs => ~ In cid (snd rs)) (rooms (disconnect cid cm)) /\
  disconnect cid (disconnect cid cm) = disconnect cid cm.
Proof.
  split; [apply disconnect_removes|]. split; [|split; [|split]].
  - intros k Hk. unfold disconnect; cbn [active_connections].
    destruct (dict_get cid (active_connections cm)); [|reflexivity].
    apply dict_get_del_other, Hk.
  - intros r. unfold disconnect; cbn [rooms]. apply dict_get_map_snd.
  - unfold disconnect; cbn [rooms]. apply Forall_map, Forall_forall.
    intros rs _. apply set_discard_not_in.
  - remember (disconnect cid cm) as cm' eqn:E.
    assert (Ha : dict_get cid (active_connections cm') = None)
      by (subst; apply disconnect_removes).
    assert (Hr : map (fun rs => (fst rs, set_discard cid (snd rs))) (rooms cm') = rooms cm').
    { subst. unfold disconnect; cbn [rooms]. rewrite map_map. apply map_ext.
      intros [r s]. cbn [fst snd]. unfold set_discard. rewrite filter_idem. reflexivity. }
    unfold disconnect at 1. rewrite Ha, Hr. destruct cm'; reflexivity.
Qed.

Lemma disconnect_cleans_witness :
  "b" <> "a" /\
  dict_get "b" (active_connections (disconnect "a" cm_rooms)) = Some ws_up.
Proof.
  assert (H : "b" <> "a") by discriminate. split; [exact H|].
  rewrite (proj1 (proj2 (disconnect_cleans cm_rooms "a")) "b" H). reflexivity.
Defined.

(** [join_room(client_id, room)] makes the client a member of the room
    (creating it when missing); the member count grows by one exactly when
    the client was not a member yet; other rooms and the registry are
    untouched; joining twice is the same as joining once. *)
Theorem join_room_spec (cm : ConnectionManager) (cid room : string) :
  (exists s, dict_get room (rooms (join_room cm cid room)) = Some s /\ In cid s) /\
  get_room_count (join_room cm cid room) room =
    (get_room_count cm room +
     if existsb (String.eqb cid) (members_of cm room) then 0 else 1)%nat /\
  (forall r, r <> room -> dict_get r (rooms (join_room cm cid room)) = dict_get r (rooms cm)) /\
  active_connections (join_room cm cid room) = active_connections cm /\
  join_room (join_room cm cid room) cid room = join_room cm cid room.
Proof.
  destruct (join_room_rooms cm cid room) as (rs & Eq & Hg & Ho & _ & _).
  assert (Hm : members_of (join_room cm cid room) room = set_add cid (members_of cm room)).
  { unfold members_of at 1. rewrite Eq, dict_get_set_same. reflexivity. }
  split; [|split; [|split; [|split]]].
  - exists (set_add cid (members_of cm room)). rewrite Eq, dict_get_set_same.
    split; [reflexivity|apply set_add_in].
  - unfold get_room_count at 1. rewrite Eq, dict_get_set_same, set_add_length.
    unfold get_room_count, members_of. destruct (dict_get room (rooms cm)); reflexivity.
  - intros r Hr. rewrite Eq, dict_get_set_other by exact Hr. apply Ho, Hr.
  - reflexivity.
  - assert (G : dict_get room (rooms (join_room cm cid room)) =
                Some (set_add cid (members_of cm room)))
      by (rewrite Eq; apply dict_get_set_same).
    set (cm1 := join_room cm cid room) in G |- *. clearbody cm1.
    unfold join_room. rewrite G. cbn iota. rewrite G, set_add_idem.
    rewrite (dict_set_get_id _ _ _ G). destruct cm1; reflexivity.
Qed.

Lemma join_room_spec_witness :
  "other" <> "lobby" /\ get_room_count (join_room cm_rooms "b" "lobby") "lobby" = 2%nat.
Proof.
  assert (H : "other" <> "lobby") by discriminate. split; [exact H|].
  rewrite (proj1 (proj2 (join_room_spec cm_rooms "b" "lobby"))). reflexivity.
Defined.

Lemma set_discard_app (x : string) (s t : list string) :
  set_discard x (s ++ t) = set_discard x s ++ set_discard x t.
Proof. unfold set_discard. apply filter_app. Qed.

Lemma set_discard_absent (x : string) (s : list string) : ~ In x s -> set_discard x s = s.
Proof.
  intros H. unfold set_discard. induction s as [|a s IH]; simpl; [reflexivity|].
  destruct (String.eqb_spec x a) as [E|E]; [subst; simpl in H; tauto|].
  simpl. rewrite IH; [reflexivity|]. simpl in H; tauto.
Qed.

(** [leave_room(client_id, room)] discards the client from a known room,
    which stays in [self.rooms] even when it becomes empty; an unknown room
    is left unknown and nothing changes; other rooms and the registry are
    untouched. *)
Theorem leave_room_spec (cm : ConnectionManager) (cid room : string) :
  dict_get room (rooms (leave_room cm cid room)) =
    option_map (set_discard cid) (dict_get room (rooms cm)) /\
  (forall s, dict_get room (rooms (leave_room cm cid room)) = Some s -> ~ In cid s) /\
  (forall r, r <> room -> dict_get r (rooms (leave_room cm cid room)) = dict_get r (rooms cm)) /\
  active_connections (leave_room cm cid room) = active_connections cm /\
  (dict_get room (rooms cm) = None -> leave_room cm cid room = cm).
Proof.
  unfold leave_room. destruct (dict_get room (rooms cm)) as [s0|] eqn:E; cbn [rooms active_connections].
  - rewrite dict_get_set_same. split; [reflexivity|]. split; [|split; [|split]].
    + intros s Hs. injection Hs as <-. apply set_discard_not_in.
    + intros r Hr. apply dict_get_set_other, Hr.
    + reflexivity.
    + discriminate.
  - rewrite E. repeat split; auto. discriminate.
Qed.

Lemma leave_room_spec_witness :
  get_room_count (leave_room cm_rooms "a" "other") "other" = 0%nat /\
  dict_get "other" (rooms (leave_room cm_rooms "a" "other")) = Some [].
Proof.
  split; [reflexivity|].
  pose proof (proj1 (leave_room_spec cm_rooms "a" "other")) as H. rewrite H. reflexivity.
Defined.

(** Subscribing and then unsubscribing a client that was not a member
    leaves the room's members as they were; a room the subscription
    created stays behind, empty. *)
Theorem join_leave_roundtrip (cm : ConnectionManager) (cid room : string) :
  ~ In cid (members_of cm room) ->
  dict_get room (rooms (leave_room (join_room cm cid room) cid room)) =
    Some (members_of cm room).
Proof.
  intros Hn.
  destruct (join_room_rooms cm cid room) as (rs & Eq & _ & _ & _ & _).
  unfold leave_room. rewrite Eq, dict_get_set_same. cbn [rooms].
  rewrite dict_get_set_same. f_equal.
  unfold set_add. destruct (existsb (String.eqb cid) (members_of cm room)) eqn:Ex.
  - apply existsb_eqb_in in Ex. contradiction.
  - rewrite set_discard_app, set_discard_absent by exact Hn.
    unfold set_discard; simpl. rewrite String.eqb_refl. apply app_nil_r.
Qed.

Lemma join_leave_roundtrip_witness :
  ~ In "b" (members_of cm_rooms "other") /\
  dict_get "other" (rooms (leave_room (join_room cm_rooms "b" "other") "b" "other")) = Some ["a"].
Proof.
  assert (H : ~ In "b" (members_of cm_rooms "other")) by (simpl; intuition discriminate).
  split; [exact H|]. apply (join_leave_roundtrip cm_rooms "b" "other" H).
Defined.

Lemma dict_set_absent_app {V} (k : string) (v : V) (d : list (string * V)) :
  dict_get k d = None -> dict_set k v d = d ++ [(k, v)].
Proof.
  induction d as [|[k' v'] d IH]; simpl; [reflexivity|].
  destruct (String.eqb k k'); [discriminate|]. intros H. rewrite (IH H). reflexivity.
Qed.

(** [connect] stores the socket under its id and leaves the other
    registrations and the rooms as they were; a fresh id is appended at
    the end of the registry, so broadcasts reach it after every older
    connection. *)
Theorem connect_registers (cm : ConnectionManager) (cid : string) (ws : WebSocket) :
  dict_get cid (active_connections (connect cm cid ws)) = Some ws /\
  (forall k, k <> cid ->
     dict_get k (active_connections (connect cm cid ws)) = dict_get k (active_connections cm)) /\
  rooms (connect cm cid ws) = rooms cm /\
  (dict_get cid (active_connections cm) = None ->
   active_connections (connect cm cid ws) = active_connections cm ++ [(cid, ws)]).
Proof.
  unfold connect; cbn [active_connections rooms]. split; [apply dict_get_set_same|].
  split; [|split; [reflexivity|]].
  - intros k Hk. apply dict_get_set_other, Hk.
  - apply dict_set_absent_app.
Qed.

Lemma connect_registers_witness :
  active_connections (connect cm_rooms "c" ws_up) = [("a", ws_down); ("b", ws_up); ("c", ws_up)].
Proof.
  rewrite (proj2 (proj2 (proj2 (connect_registers cm_rooms "c" ws_up)))); reflexivity.
Defined.

(** [broadcast_to_room]: an unknown room sends nothing and changes nothing.
    For a known room every member, in set order, that is not excluded and
    is registered gets one delivery attempt; excluded members get none and
    stay; the members found dead (unregistered, or whose send failed) are
    discarded from that room only, while the registry and the other rooms
    are left as they were. *)
Lemma room_broadcast_spec (cm : ConnectionManager) (room : string) (m : Message)
    (ex : option string) :
  (dict_get room (rooms cm) = None -> broadcast_to_room cm room m ex = (cm, [])) /\
  (forall members, dict_get room (rooms cm) = Some members ->
     snd (broadcast_to_room cm room m ex) =
       flat_map (room_attempt (active_connections cm) ex m) members /\
     dict_get room (rooms (fst (broadcast_to_room cm room m ex))) =
       Some (filter (fun x => negb (room_dead (active_connections cm) ex x)) members) /\
     active_connections (fst (broadcast_to_room cm room m ex)) = active_connections cm /\
     (forall r, r <> room ->
        dict_get r (rooms (fst (broadcast_to_room cm room m ex))) = dict_get r (rooms cm))).
Proof.
  unfold broadcast_to_room. split; [intros E; rewrite E; reflexivity|].
  intros members E. rewrite E, room_pass_spec. cbn [fst snd rooms active_connections].
  split; [reflexivity|]. split; [|split; [reflexivity|]].
  - rewrite dict_get_set_same, fold_discard. f_equal. apply filter_ext_in.
    intros x Hx. f_equal.
    destruct (room_dead (active_connections cm) ex x) eqn:D.
    + apply existsb_eqb_in, filter_In. auto.
    + apply Bool.not_true_is_false. intros H. apply existsb_eqb_in, filter_In in H.
      destruct H as [_ H]. congruence.
  - intros r Hr. apply dict_get_set_other, Hr.
Qed.

Lemma room_loop_quiet (m : Message) (ex : option string) (room : string) (fuel k : nat)
    (picks : list IterStep) (cm : ConnectionManager) (disc : list string) :
  (List.length (members_of cm room) - k < fuel)%nat ->
  room_loop m ex room fuel (List.length (members_of cm room)) k false [] picks cm disc =
  (Returned,
   room_cleanup room
     (disc ++ fst (room_pass (active_connections cm) (skipn k (members_of cm room)) m ex)) cm,
   snd (room_pass (active_connections cm) (skipn k (members_of cm room)) m ex)).
Proof.
  revert k disc; induction fuel as [|fuel IH]; intros k disc Hf; [lia|].
  cbn [room_loop]. unfold iter_next. rewrite Nat.eqb_refl. cbn [negb].
  destruct (nth_error (members_of cm room) k) as [cid|] eqn:E.
  - assert (Hk : (k < List.length (members_of cm room))%nat)
      by (apply nth_error_Some; congruence).
    rewrite (skipn_nth_error _ _ _ E). cbn [room_pass].
    destruct (is_excluded cid ex); [apply IH; lia|].
    destruct (dict_get cid (active_connections cm)) as [ws|].
    + unfold send_json. destruct (ws_open ws);
        cbn [hd tl members_changed run_sync fold_left orb]; rewrite IH by lia;
        destruct (room_pass _ (skipn (S k) (members_of cm room)) m ex) as [d tr];
        cbn [fst snd]; rewrite <- app_assoc; reflexivity.
    + rewrite IH by lia.
      destruct (room_pass _ (skipn (S k) (members_of cm room)) m ex) as [d tr].
      cbn [fst snd]. rewrite <- app_assoc. reflexivity.
  - rewrite (skipn_nth_error_none _ _ E). cbn. rewrite app_nil_r. reflexivity.
Qed.

(** With no other coroutine acting during its sends, [broadcast_to_room_run]
    is the pass [broadcast_to_room] and returns. *)
Lemma room_run_quiet (cm : ConnectionManager) (room : string) (m : Message)
    (ex : option string) (picks : list IterStep) :
  broadcast_to_room_run m ex room cm [] picks =
  (Returned, fst (broadcast_to_room cm room m ex), snd (broadcast_to_room cm room m ex)).
Proof.
  unfold broadcast_to_room_run, broadcast_to_room.
  destruct (dict_get room (rooms cm)) as [members|] eqn:E; [|reflexivity].
  assert (Em : members_of cm room = members) by (unfold members_of; rewrite E; reflexivity).
  rewrite <- Em, room_loop_quiet by lia. cbn [skipn app].
  destruct (room_pass (active_connections cm) (members_of cm room) m ex). reflexivity.
Qed.

Lemma room_loop_excludes (m : Message) (ex : option string) (room : string) (fuel n0 k : nat)
    (c : bool) (env : list (list SyncOp)) (picks : list IterStep) (cm : ConnectionManager)
    (disc : list string) :
  Forall (fun d => is_excluded (delivery_target d) ex = false)
         (snd (room_loop m ex room fuel n0 k c env picks cm disc)).
Proof.
  revert n0 k c env picks cm disc; induction fuel as [|fuel IH]; intros n0 k c env picks cm disc;
    [constructor|].
  cbn [room_loop]. destruct (iter_next _ _ _ _ _) as [step picks'].
  destruct step as [| |j]; [constructor|constructor|].
  destruct (nth_error (members_of cm room) j) as [cid|]; [|constructor].
  destruct (is_excluded cid ex) eqn:Ex; [apply IH|].
  destruct (dict_get cid (active_connections cm)) as [ws|]; [|apply IH].
  unfold send_json. destruct (ws_open ws);
  match goal with |- context [room_loop m ex room fuel n0 (S k) ?c2 ?e2 picks' ?cm2 ?d2] =>
    specialize (IH n0 (S k) c2 e2 picks' cm2 d2);
    destruct (room_loop m ex room fuel n0 (S k) c2 e2 picks' cm2 d2) as [[r' cm'] tr'] end;
  cbn [snd] in *; apply Forall_app; split; try exact IH; repeat constructor; exact Ex.
Qed.

Lemma room_loop_state (m : Message) (ex : option string) (room : string) (fuel n0 k : nat)
    (c : bool) (env : list (list SyncOp)) (picks : list IterStep) (cm : ConnectionManager)
    (disc : list string) :
  (iter_measure n0 k c picks < fuel)%nat ->
  match room_loop m ex room fuel n0 k c env picks cm disc with
  | (Raised, cm', tr) => cm' = run_windows (firstn (List.length tr) env) cm
  | (Returned, cm', tr) =>
      (exists d, cm' = room_cleanup room d (run_windows (firstn (List.length tr) env) cm)) /\
      List.length (members_of (run_windows (firstn (List.length tr) env) cm) room) = n0
  end.
Proof.
  revert n0 k c env picks cm disc; induction fuel as [|fuel IH];
    intros n0 k c env picks cm disc Hm; [lia|].
  cbn [room_loop]. destruct (iter_next _ _ _ _ _) as [step picks'] eqn:En.
  pose proof (iter_next_cases _ _ _ _ _ _ _ En) as Hc.
  assert (Hstop : step <> IRaise ->
    (exists d, room_cleanup room disc cm = room_cleanup room d (run_windows (firstn 0 env) cm)) /\
    List.length (members_of (run_windows (firstn 0 env) cm) room) = n0).
  { intros Hs. split; [exists disc; reflexivity|].
    destruct Hc as [(? & _)|(Hl & _)]; [contradiction|exact Hl]. }
  destruct step as [| |j]; [apply Hstop; discriminate|reflexivity|].
  destruct (nth_error (members_of cm room) j) as [cid|] eqn:Ej; [|apply Hstop; discriminate].
  destruct (is_excluded cid ex); [apply IH; eapply iter_measure_step; eauto|].
  destruct (dict_get cid (active_connections cm)) as [ws|];
    [|apply IH; eapply iter_measure_step; eauto].
  unfold send_json. destruct (ws_open ws);
  match goal with |- context [room_loop m ex room fuel n0 (S k) ?c2 ?e2 picks' ?cm2 ?d2] =>
    assert (Hm2 : (iter_measure n0 (S k) c2 picks' < fuel)%nat)
      by (eapply iter_measure_step; eauto; intros ->; reflexivity);
    specialize (IH n0 (S k) c2 e2 picks' cm2 d2 Hm2);
    destruct (room_loop m ex room fuel n0 (S k) c2 e2 picks' cm2 d2) as [[r' cm'] tr'] end;
  cbn [List.length app]; rewrite run_windows_firstn_S; destruct r'; exact IH.
Qed.

Lemma room_loop_fuel (m : Message) (ex : option string) (room : string) (f1 f2 n0 k : nat)
    (c : bool) (env : list (list SyncOp)) (picks : list IterStep) (cm : ConnectionManager)
    (disc : list string) :
  (iter_measure n0 k c picks < f1)%nat -> (iter_measure n0 k c picks < f2)%nat ->
  room_loop m ex room f1 n0 k c env picks cm disc = room_loop m ex room f2 n0 k c env picks cm disc.
Proof.
  revert f2 n0 k c env picks cm disc; induction f1 as [|f1 IH];
    intros [|f2] n0 k c env picks cm disc H1 H2; try lia.
  cbn [room_loop]. destruct (iter_next _ _ _ _ _) as [step picks'] eqn:En.
  destruct step as [| |j]; try reflexivity.
  destruct (nth_error (members_of cm room) j) as [cid|] eqn:Ej; [|reflexivity].
  destruct (is_excluded cid ex); [apply IH; eapply iter_measure_step; eauto|].
  destruct (dict_get cid (active_connections cm)) as [ws|];
    [|apply IH; eapply iter_measure_step; eauto].
  unfold send_json. destruct (ws_open ws);
    (rewrite (IH f2); [reflexivity| |]; eapply iter_measure_step; eauto; intros ->; reflexivity).
Qed.

(** When no other coroutine acts during its sends, [broadcast_to_room] on
    an unknown room does nothing; on a known room it attempts every member,
    in set order, that is not excluded and is registered, once; excluded
    members get nothing and stay; the members found dead (unregistered, or
    whose send failed) are discarded from that room only, while the
    registry and the other rooms are left as they were. *)
Theorem room_broadcast_quiet_spec (cm : ConnectionManager) (room : string) (m : Message)
    (ex : option string) (picks : list IterStep) :
  let '(r, cm', tr) := broadcast_to_room_run m ex room cm [] picks in
  r = Returned /\
  (dict_get room (rooms cm) = None -> cm' = cm /\ tr = []) /\
  (forall members, dict_get room (rooms cm) = Some members ->
     tr = flat_map (room_attempt (active_connections cm) ex m) members /\
     dict_get room (rooms cm') =
       Some (filter (fun x => negb (room_dead (active_connections cm) ex x)) members) /\
     active_connections cm' = active_connections cm /\
     (forall r, r <> room -> dict_get r (rooms cm') = dict_get r (rooms cm))).
Proof.
  rewrite room_run_quiet.
  destruct (room_broadcast_spec cm room m ex) as [Hn Hs].
  split; [reflexivity|]. split.
  - intros E. rewrite (Hn E). split; reflexivity.
  - exact Hs.
Qed.

(** Whatever other coroutines do while it is suspended, a room broadcast
    never unregisters anyone and changes no other room: at the end the
    registry and every other room are as the other coroutines left them.
    It makes no delivery attempt to the excluded id, and it only returns
    when the room's set has, at the last [next()], the size it had at the
    call: a member added or removed during a send makes the pass raise
    [RuntimeError]. *)
Theorem room_broadcast_run_effect (cm : ConnectionManager) (room : string) (m : Message)
    (ex : option string) (env : list (list SyncOp)) (picks : list IterStep) :
  let '(r, cm', tr) := broadcast_to_room_run m ex room cm env picks in
  let cw := run_windows (firstn (List.length tr) env) cm in
  active_connections cm' = active_connections cw /\
  (forall r', r' <> room -> dict_get r' (rooms cm') = dict_get r' (rooms cw)) /\
  (r = Returned -> List.length (members_of cw room) = get_room_count cm room) /\
  Forall (fun d => is_excluded (delivery_target d) ex = false) tr.
Proof.
  unfold broadcast_to_room_run, get_room_count.
  destruct (dict_get room (rooms cm)) as [members|] eqn:E.
  - set (n0 := List.length members).
    pose proof (room_loop_state m ex room (S (n0 + List.length picks)) n0 0 false env picks cm []
                  ltac:(unfold iter_measure; lia)) as Hst.
    pose proof (room_loop_excludes m ex room (S (n0 + List.length picks)) n0 0 false env picks cm [])
      as Hx.
    destruct (room_loop _ _ _ _ _ _ _ _ _ _ _) as [[r cm'] tr]. cbn [snd] in Hx.
    destruct r.
    + destruct Hst as ((d & ->) & Hl). cbn [room_cleanup active_connections rooms].
      split; [reflexivity|]. split; [intros r' Hr; apply dict_get_set_other, Hr|].
      split; [intros _; exact Hl|exact Hx].
    + subst cm'. split; [reflexivity|]. split; [reflexivity|].
      split; [discriminate|exact Hx].
  - cbn. split; [reflexivity|]. split; [reflexivity|].
    split; [|constructor]. intros _. unfold members_of. rewrite E. reflexivity.
Qed.

(** Whatever other coroutines do while it is suspended, the change
    [broadcast] itself makes to the manager is: when it returns, the
    unregistration, after the loop, of exactly the ids whose send failed,
    applied to the state the other coroutines left; when it raises
    [RuntimeError], none. It only returns when the registry has, at the
    last [next()], the size it had at the call. *)
Theorem broadcast_run_effect (cm : ConnectionManager) (m : Message) (ex : option string)
    (env : list (list SyncOp)) (picks : list IterStep) :
  let '(r, cm', tr) := broadcast_run m ex cm env picks in
  let cw := run_windows (firstn (List.length tr) env) cm in
  match r with
  | Raised => cm' = cw
  | Returned =>
      cm' = disconnect_all (failed_ids tr) cw /\
      List.length (active_connections cw) = List.length (active_connections cm)
  end.
Proof.
  unfold broadcast_run.
  pose proof (bcast_loop_state m ex (S (List.length (active_connections cm) + List.length picks))
                (List.length (active_connections cm)) 0 false env picks cm []
                ltac:(unfold iter_measure; lia)) as Hst.
  destruct (bcast_loop _ _ _ _ _ _ _ _ _ _) as [[r cm'] tr]. exact Hst.
Qed.

Lemma dict_set_keeps_key {V} (k r : string) (v : V) (d : list (string * V)) :
  dict_get r d <> None -> dict_get r (dict_set k v d) <> None.
Proof.
  intros H. destruct (String.eqb_spec r k) as [->|E].
  - rewrite dict_get_set_same. discriminate.
  - rewrite dict_get_set_other by exact E. exact H.
Qed.

Lemma disconnect_keeps_room (cid r : string) (cm : ConnectionManager) :
  dict_get r (rooms cm) <> None -> dict_get r (rooms (disconnect cid cm)) <> None.
Proof.
  intros H. unfold disconnect; cbn [rooms]. rewrite dict_get_map_snd.
  destruct (dict_get r (rooms cm)); [discriminate|exact H].
Qed.

Lemma apply_mgr_keeps_room (cm : ConnectionManager) (o : MgrOp) (r : string) :
  dict_get r (rooms cm) <> None -> dict_get r (rooms (apply_mgr cm o)) <> None.
Proof.
  intros H. destruct o as [cid ws|cid|cid room|cid room|m cid|m ex|room m ex];
    cbn [apply_mgr].
  - exact H.
  - apply disconnect_keeps_room, H.
  - destruct (join_room_rooms cm cid room) as (rs & Eq & Hg & Ho & _ & _).
    rewrite Eq. apply dict_set_keeps_key.
    destruct (String.eqb_spec r room) as [->|E]; [rewrite Hg; discriminate|].
    rewrite Ho by exact E. exact H.
  - unfold leave_room. destruct (dict_get room (rooms cm)); [|exact H].
    apply dict_set_keeps_key, H.
  - rewrite send_personal_state. exact H.
  - rewrite broadcast_state. generalize (dead_ids (targets ex (active_connections cm))).
    intros ids. revert cm H. induction ids as [|j ids IH]; intros cm H; [exact H|].
    change (disconnect_all (j :: ids) cm) with (disconnect_all ids (disconnect j cm)).
    apply IH, disconnect_keeps_room, H.
  - unfold broadcast_to_room. destruct (dict_get room (rooms cm)); [|exact H].
    destruct (room_pass _ _ _ _). apply dict_set_keeps_key, H.
Qed.

(** No manager operation ever removes a room: once a name is a key of
    [self.rooms] it stays one, even after its last member has left. *)
Theorem rooms_never_removed (ops : list MgrOp) (cm : ConnectionManager) (r : string) :
  dict_get r (rooms cm) <> None -> dict_get r (rooms (run_mgr ops cm)) <> None.
Proof.
  unfold run_mgr. revert cm; induction ops as [|o ops IH]; intros cm H; [exact H|].
  cbn [fold_left]. apply IH, apply_mgr_keeps_room, H.
Qed.

Lemma rooms_never_removed_witness :
  dict_get "other" (rooms (run_mgr [MLeave "a" "other"; MDisconnect "a"] cm_rooms)) <> None.
Proof. apply rooms_never_removed. discriminate. Defined.

(* ----------------------------------------------------------------- *)
(** *** The endpoints [websocket_endpoint] and [chat_room] *)

(** What [json.loads] returns: the dict of an object has unique keys. JSON
    numbers only matter here through their truth value and equality. *)
#[warnings="-register-all"]
Inductive JSON :=
| JNull
| JBool (b : bool)
| JNum (n : Z)
| JStr (s : string)
| JArr (l : list JSON)
| JObj (kvs : list (string * JSON)).

(** Python truthiness ([if room:]). *)
Definition truthy (v : JSON) : bool :=
  match v with
  | JNull => false
  | JBool b => b
  | JNum n => negb (Z.eqb n 0)
  | JStr s => negb (String.eqb s "")
  | JArr l => match l with [] => false | _ => true end
  | JObj kvs => match kvs with [] => false | _ => true end
  end.

(** [message.get(k, default)] on a dict. *)
Definition jget (k : string) (default : JSON) (kvs : list (string * JSON)) : JSON :=
  match dict_get k kvs with Some v => v | None => default end.

(** [v == s] for a string literal [s]. *)
Definition is_str (s : string) (v : JSON) : bool :=
  match v with JStr t => String.eqb t s | _ => false end.

(** The keys of [self.rooms]. A room named by a JSON string is keyed by
    that string, one named by a JSON integer by the integer, and [True]
    is the key [1] ([hash(True) == hash(1)] and [True == 1]). Keys are
    strings in this model: [str_key] and [int_key] map the two kinds of
    Python keys to strings that never coincide (a string key starts with a
    NUL character only when it gets a second one; an integer key is NUL,
    '#' and its decimal text). A list or an object is unhashable. *)
Definition str_key (s : string) : string :=
  match s with
  | String c _ => if Ascii.eqb c Ascii.zero then String Ascii.zero s else s
  | EmptyString => s
  end.

Definition int_key (n : Z) : string := String Ascii.zero (String "#" (SSE.z_to_str n)).

Definition room_key (v : JSON) : option string :=
  match v with
  | JStr s => Some (str_key s)
  | JNum n => Some (int_key n)
  | JBool b => Some (int_key (if b then 1 else 0))
  | JNull => Some (String Ascii.zero "N")
  | JArr _ | JObj _ => None
  end.

(** How one pass of the [while True] body ends: it loops again, or an
    exception other than [JSONDecodeError] leaves the loop. *)
Inductive Outcome := Continue | Stop.

Definition outcome_of (r : PyResult) : Outcome :=
  match r with Returned => Continue | Raised => Stop end.

(** How the [try] block of an endpoint ends. *)
Inductive SessionEnd := PeerLeft | Failed.

Section Endpoint.

(** [json.dumps] as [send_json] applies it, [json.loads], and the clock
    reading [datetime.utcnow().isoformat()]: inputs of the model. *)
Variable dumps : JSON -> Message.
Variable json_loads : string -> option JSON.
Variable timestamp : string.

(** A personal send followed, when it returns, by more work. *)
Definition send_then (cm : ConnectionManager) (cid : string) (j : JSON)
    (k : ConnectionManager -> Outcome * ConnectionManager * list Delivery)
    : Outcome * ConnectionManager * list Delivery :=
  let '(r, cm1, tr1) := send_personal_message cm (dumps j) cid in
  match r with
  | Raised => (Stop, cm1, tr1)
  | Returned => let '(o, cm2, tr2) := k cm1 in (o, cm2, tr1 ++ tr2)
  end.

(** One pass of the receive loop of [websocket_endpoint], lines 147-219,
    for the text frame [data]. A truthy room that is a list or an object
    makes the first dict operation on it ([room not in self.rooms] in
    [join_room] or [broadcast_to_room], [room in self.rooms] in
    [leave_room]) raise [TypeError] before anything is changed or sent. *)
Definition handle_frame (cm : ConnectionManager) (cid : string) (data : string)
    : Outcome * ConnectionManager * list Delivery :=
  match json_loads data with
  | None =>
      let '(r, cm1, tr) := send_personal_message cm
            (dumps (JObj [("type", JStr "error"); ("error", JStr "Invalid JSON format")])) cid in
      (outcome_of r, cm1, tr)
  | Some (JObj kvs) =>
      let ty := jget "type" (JStr "message") kvs in
      let room := jget "room" JNull kvs in
      if is_str "ping" ty then
        send_then cm cid (JObj [("type", JStr "pong"); ("timestamp", JStr timestamp)])
                  (fun c => (Continue, c, []))
      else if is_str "subscribe" ty then
        if truthy room then
          match room_key room with
          | Some r =>
              let cm1 := join_room cm cid r in
              send_then cm1 cid
                (JObj [("type", JStr "subscribed"); ("room", room);
                       ("count", JNum (Z.of_nat (get_room_count cm1 r)))])
                (fun c =>
                   let (c2, tr) := broadcast_to_room c r
                     (dumps (JObj [("type", JStr "user_joined_room"); ("client_id", JStr cid);
                                   ("room", room)])) (Some cid) in
                   (Continue, c2, tr))
          | None => (Stop, cm, [])
          end
        else (Continue, cm, [])
      else if is_str "unsubscribe" ty then
        if truthy room then
          match room_key room with
          | Some r =>
              let cm1 := leave_room cm cid r in
              send_then cm1 cid (JObj [("type", JStr "unsubscribed"); ("room", room)])
                (fun c =>
                   let (c2, tr) := broadcast_to_room c r
                     (dumps (JObj [("type", JStr "user_left_room"); ("client_id", JStr cid);
                                   ("room", room)])) (Some cid) in
                   (Continue, c2, tr))
          | None => (Stop, cm, [])
          end
        else (Continue, cm, [])
      else if is_str "message" ty then
        let msg_data := [("type", JStr "message"); ("client_id", JStr cid);
                         ("data", jget "data" JNull kvs); ("timestamp", JStr timestamp)] in
        if truthy room then
          match room_key room with
          | Some r =>
              let (c2, tr) := broadcast_to_room cm r (dumps (JObj (msg_data ++ [("room", room)]))) None in
              (Continue, c2, tr)
          | None => (Stop, cm, [])
          end
        else
          let (c2, tr) := broadcast cm (dumps (JObj msg_data)) None in
          (Continue, c2, tr)
      else (Continue, cm, [])
  | Some _ =>
      (* [message.get] on a list, string, number, ... raises AttributeError *)
      (Stop, cm, [])
  end.

(** The [while True] loop over the frames the peer sends before it goes
    away, when [receive_text] raises [WebSocketDisconnect]. *)
Fixpoint receive_loop (cm : ConnectionManager) (cid : string) (frames : list string)
    : SessionEnd * ConnectionManager * list Delivery :=
  match frames with
  | [] => (PeerLeft, cm, [])
  | d :: rest =>
      match handle_frame cm cid d with
      | (Stop, cm1, tr) => (Failed, cm1, tr)
      | (Continue, cm1, tr) =>
          let '(e, cm2, tr2) := receive_loop cm1 cid rest in (e, cm2, tr ++ tr2)
      end
  end.

(** [websocket_endpoint], lines 114-234, for a connection with transport
    [ws] that [connect] registers under [cid]. The frames the heartbeat
    task sends are left out: they are personal sends, which never change
    the manager. When the welcome send raises, [heartbeat_task] is still
    unbound, so [heartbeat_task.cancel()] in the [finally] raises
    [UnboundLocalError] and the rest of the cleanup does not run. *)
Definition websocket_endpoint (cm : ConnectionManager) (ws : WebSocket) (cid : string)
    (frames : list string) : PyResult * ConnectionManager * list Delivery :=
  let cm1 := connect cm cid ws in
  let '(r, cm2, tr1) := send_personal_message cm1
        (dumps (JObj [("type", JStr "connected"); ("client_id", JStr cid);
                      ("timestamp", JStr timestamp)])) cid in
  match r with
  | Raised => (Raised, cm2, tr1)
  | Returned =>
      let (cm3, tr2) := broadcast cm2
            (dumps (JObj [("type", JStr "user_joined"); ("client_id", JStr cid);
                          ("timestamp", JStr timestamp)])) (Some cid) in
      let '(e, cm4, tr3) := receive_loop cm3 cid frames in
      let cm5 := disconnect cid cm4 in
      let (cm6, tr4) := broadcast cm5
            (dumps (JObj [("type", JStr "user_left"); ("client_id", JStr cid);
                          ("timestamp", JStr timestamp)])) None in
      (match e with PeerLeft => Returned | Failed => Raised end,
       cm6, tr1 ++ tr2 ++ tr3 ++ tr4)
  end.

(** The receive loop of [chat_room], lines 268-278: every frame is relayed
    to the room, sender included (the room broadcast returns in this
    session model). *)
Fixpoint chat_loop (cm : ConnectionManager) (cid room : string) (frames : list string)
    : ConnectionManager * list Delivery :=
  match frames with
  | [] => (cm, [])
  | d :: rest =>
      let (cm1, tr1) := broadcast_to_room cm (str_key room)
            (dumps (JObj [("type", JStr "message"); ("client_id", JStr cid); ("room", JStr room);
                          ("content", JStr d); ("timestamp", JStr timestamp)])) None in
      let (cm2, tr2) := chat_loop cm1 cid room rest in
      (cm2, tr1 ++ tr2)
  end.

(** [chat_room(websocket, room)], lines 252-298. The [finally] runs after
    the peer leaves and also when the welcome send raises; the result says
    whether an exception escapes. *)
Definition chat_room (cm : ConnectionManager) (ws : WebSocket) (cid room : string)
    (frames : list string) : PyResult * ConnectionManager * list Delivery :=
  let cm1 := join_room (connect cm cid ws) cid (str_key room) in
  let '(r, cm2, tr1) := send_personal_message cm1
        (dumps (JObj [("type", JStr "joined_room"); ("room", JStr room); ("client_id", JStr cid);
                      ("users_count", JNum (Z.of_nat (get_room_count cm1 (str_key room))))])) cid in
  let '(cm4, tr23) :=
    match r with
    | Raised => (cm2, [])
    | Returned =>
        let (cm3, tr2) := broadcast_to_room cm2 (str_key room)
              (dumps (JObj [("type", JStr "user_joined"); ("client_id", JStr cid);
                            ("users_count", JNum (Z.of_nat (get_room_count cm2 (str_key room))))]))
              (Some cid) in
        let (cm4, tr3) := chat_loop cm3 cid room frames in
        (cm4, tr2 ++ tr3)
    end in
  let cm5 := disconnect cid (leave_room cm4 cid (str_key room)) in
  let (cm6, tr4) := broadcast_to_room cm5 (str_key room)
        (dumps (JObj [("type", JStr "user_left"); ("client_id", JStr cid);
                      ("users_count", JNum (Z.of_nat (get_room_count cm5 (str_key room))))])) None in
  (r, cm6, tr1 ++ tr23 ++ tr4).

End Endpoint.

(** Two rooms named by JSON strings share a key only when the strings are
    equal, and a string room never shares its key with an integer room. *)
Lemma str_key_inj (s t : string) : str_key s = str_key t -> s = t.
Proof.
  destruct s as [|c s], t as [|d t]; cbn [str_key]; try reflexivity;
    try destruct (Ascii.eqb c Ascii.zero) eqn:Ec;
    try destruct (Ascii.eqb d Ascii.zero) eqn:Ed; intros H; try discriminate H;
    try (injection H as <- <-; reflexivity);
    try (injection H as -> ->; reflexivity);
    injection H as E1 E2; subst;
    rewrite ?Ascii.eqb_refl in *; discriminate.
Qed.

Lemma str_key_int_key (s : string) (n : Z) : str_key s <> int_key n.
Proof.
  unfold int_key. destruct s as [|c s]; cbn [str_key]; [discriminate|].
  destruct (Ascii.eqb c Ascii.zero) eqn:Ec; intros H; injection H as E1 E2.
  - subst c. discriminate Ec.
  - subst c. rewrite Ascii.eqb_refl in Ec. discriminate.
Qed.

(** Sample inputs: a rendering that keeps the message type, and a parser
    for a few frames. *)
Definition demo_dumps (j : JSON) : Message :=
  match j with JObj ((_, JStr t) :: _) => t | _ => "" end.

Definition demo_loads (s : string) : option JSON :=
  if String.eqb s "[1]" then Some (JArr [JNum 1])
  else if String.eqb s "{}" then Some (JObj [])
  else if String.eqb s "sub" then Some (JObj [("type", JStr "subscribe"); ("room", JStr "lobby")])
  else if String.eqb s "odd" then Some (JObj [("type", JStr "shout")])
  else None.

(** A client that is unregistered and in no room. *)
Definition gone (cid : string) (cm : ConnectionManager) : Prop :=
  dict_get cid (active_connections cm) = None /\
  Forall (fun rs => ~ In cid (snd rs)) (rooms cm).

Lemma disconnect_gone_self (cid : string) (cm : ConnectionManager) : gone cid (disconnect cid cm).
Proof.
  split; [apply disconnect_removes|]. unfold disconnect; cbn [rooms].
  apply Forall_map, Forall_forall. intros rs _. apply set_discard_not_in.
Qed.

Lemma room_broadcast_gone (cid room : string) (cm : ConnectionManager) (m : Message)
    (ex : option string) :
  gone cid cm -> gone cid (fst (broadcast_to_room cm room m ex)).
Proof.
  intros [Ha Hr]. unfold broadcast_to_room.
  destruct (dict_get room (rooms cm)) as [s|] eqn:E; [|split; assumption].
  rewrite room_pass_spec. cbn [fst active_connections rooms]. split; [exact Ha|].
  apply (dict_set_forall (fun s => ~ In cid s)); [exact Hr|].
  rewrite fold_discard. intros Hin. apply filter_In in Hin as [Hin _].
  apply dict_get_in in E. rewrite Forall_forall in Hr. apply (Hr _ E Hin).
Qed.

Lemma room_broadcast_keeps_room (cm : ConnectionManager) (room r : string) (m : Message)
    (ex : option string) :
  dict_get r (rooms cm) <> None -> dict_get r (rooms (fst (broadcast_to_room cm room m ex))) <> None.
Proof.
  intros H. unfold broadcast_to_room. destruct (dict_get room (rooms cm)); [|exact H].
  destruct (room_pass _ _ _ _). apply dict_set_keeps_key, H.
Qed.

Lemma chat_loop_keeps_room dumps ts (cm : ConnectionManager) (cid room r : string)
    (frames : list string) :
  dict_get r (rooms cm) <> None -> dict_get r (rooms (fst (chat_loop dumps ts cm cid room frames))) <> None.
Proof.
  revert cm; induction frames as [|d rest IH]; intros cm H; [exact H|].
  cbn [chat_loop].
  pose proof (room_broadcast_keeps_room cm (str_key room) r
    (dumps (JObj [("type", JStr "message"); ("client_id", JStr cid); ("room", JStr room);
                  ("content", JStr d); ("timestamp", JStr ts)])) None H) as H1.
  destruct (broadcast_to_room _ _ _ _) as [cm1 tr1]. cbn [fst] in H1.
  specialize (IH cm1 H1). destruct (chat_loop _ _ cm1 cid room rest). exact IH.
Qed.

Lemma send_personal_targets (cm : ConnectionManager) (m : Message) (cid : string) :
  Forall (fun d => delivery_target d = cid) (snd (send_personal_message cm m cid)) /\
  (List.length (snd (send_personal_message cm m cid)) <= 1)%nat.
Proof.
  unfold send_personal_message.
  destruct (dict_get cid (active_connections cm)) as [ws|]; [|split; simpl; auto].
  unfold send_json. destruct (ws_open ws); simpl; split; auto.
Qed.

(** A frame that is not valid JSON only gets the error reply, to the sender
    alone; the manager is unchanged. *)
Theorem invalid_json_error_reply dumps json_loads ts (cm : ConnectionManager)
    (cid data : string) :
  json_loads data = None ->
  exists o tr,
    handle_frame dumps json_loads ts cm cid data = (o, cm, tr) /\
    Forall (fun d => delivery_target d = cid) tr /\ (List.length tr <= 1)%nat.
Proof.
  intros H. unfold handle_frame. rewrite H.
  pose proof (send_personal_targets cm
    (dumps (JObj [("type", JStr "error"); ("error", JStr "Invalid JSON format")])) cid) as Ht.
  pose proof (send_personal_state cm
    (dumps (JObj [("type", JStr "error"); ("error", JStr "Invalid JSON format")])) cid) as Hs.
  destruct (send_personal_message _ _ _) as [[r cm1] tr]. cbn [fst snd] in Ht, Hs. subst cm1.
  exists (outcome_of r), tr. auto.
Qed.

(** A frame that parses to JSON other than an object makes [message.get]
    raise: the loop ends there, nothing is sent, the rest of the frames is
    never read. *)
Theorem non_object_frame_ends_loop dumps json_loads ts (cm : ConnectionManager)
    (cid data : string) (v : JSON) (rest : list string) :
  json_loads data = Some v -> (forall kvs, v <> JObj kvs) ->
  handle_frame dumps json_loads ts cm cid data = (Stop, cm, []) /\
  receive_loop dumps json_loads ts cm cid (data :: rest) = (Failed, cm, []).
Proof.
  intros H Hv.
  assert (E : handle_frame dumps json_loads ts cm cid data = (Stop, cm, [])).
  { unfold handle_frame. rewrite H. destruct v; try reflexivity. exfalso; eapply Hv; reflexivity. }
  split; [exact E|]. cbn [receive_loop]. rewrite E. reflexivity.
Qed.

(** An object whose "type" is none of "ping", "subscribe", "unsubscribe"
    and "message" is ignored: no reply, no change. *)
Theorem unknown_type_ignored dumps json_loads ts (cm : ConnectionManager)
    (cid data : string) (kvs : list (string * JSON)) :
  json_loads data = Some (JObj kvs) ->
  existsb (fun s => is_str s (jget "type" (JStr "message") kvs))
          ["ping"; "subscribe"; "unsubscribe"; "message"] = false ->
  handle_frame dumps json_loads ts cm cid data = (Continue, cm, []).
Proof.
  intros H Ht. unfold handle_frame. rewrite H. cbn [existsb] in Ht.
  apply Bool.orb_false_elim in Ht as [H1 Ht]. apply Bool.orb_false_elim in Ht as [H2 Ht].
  apply Bool.orb_false_elim in Ht as [H3 Ht]. apply Bool.orb_false_elim in Ht as [H4 _].
  rewrite H1, H2, H3, H4. reflexivity.
Qed.

Lemma room_broadcast_keeps_excluded (cm : ConnectionManager) (room cid : string) (m : Message)
    (s : list string) :
  dict_get room (rooms cm) = Some s -> In cid s ->
  exists s', dict_get room (rooms (fst (broadcast_to_room cm room m (Some cid)))) = Some s' /\
             In cid s'.
Proof.
  intros E Hin. unfold broadcast_to_room. rewrite E, room_pass_spec. cbn [fst rooms].
  rewrite dict_get_set_same, fold_discard. eexists; split; [reflexivity|].
  apply filter_In. split; [exact Hin|]. apply Bool.negb_true_iff, Bool.not_true_is_false.
  intros Hx. apply existsb_eqb_in, filter_In in Hx as [_ Hx].
  unfold room_dead, is_excluded in Hx. rewrite String.eqb_refl in Hx. discriminate.
Qed.

(** A "subscribe" frame with a truthy, hashable room (a non-empty string,
    a non-zero integer, [true]) leaves the sender a member of that room,
    whether or not its confirmation could be sent; the room notification
    excludes the sender. *)
Theorem subscribe_makes_member dumps json_loads ts (cm : ConnectionManager)
    (cid data : string) (kvs : list (string * JSON)) (v : JSON) (k : string) :
  json_loads data = Some (JObj kvs) ->
  dict_get "type" kvs = Some (JStr "subscribe") ->
  dict_get "room" kvs = Some v -> truthy v = true -> room_key v = Some k ->
  exists s, dict_get k (rooms (snd (fst (handle_frame dumps json_loads ts cm cid data)))) = Some s /\
            In cid s.
Proof.
  intros H Ht Hr Htr Hk. unfold handle_frame. rewrite H.
  assert (Ety : jget "type" (JStr "message") kvs = JStr "subscribe")
    by (unfold jget; rewrite Ht; reflexivity).
  assert (Ero : jget "room" JNull kvs = v) by (unfold jget; rewrite Hr; reflexivity).
  rewrite Ety, Ero. cbn [is_str String.eqb]. rewrite Htr, Hk.
  destruct (join_room_rooms cm cid k) as (rs & Eq & _ & _ & _ & _).
  assert (Hj : dict_get k (rooms (join_room cm cid k)) = Some (set_add cid (members_of cm k)))
    by (rewrite Eq; apply dict_get_set_same).
  set (cm1 := join_room cm cid k) in Hj |- *. clearbody cm1.
  unfold send_then.
  match goal with |- context [send_personal_message cm1 ?M cid] =>
    pose proof (send_personal_state cm1 M cid) as Hs;
    destruct (send_personal_message cm1 M cid) as [[res c] tr1] end.
  cbn [fst snd] in Hs. subst c.
  destruct res.
  - match goal with |- context [broadcast_to_room cm1 k ?M (Some cid)] =>
      destruct (room_broadcast_keeps_excluded cm1 k cid M _ Hj (set_add_in cid _)) as (s' & Hs' & Hin);
      destruct (broadcast_to_room cm1 k M (Some cid)) as [c2 tr2] end.
    exists s'. split; assumption.
  - eexists. split; [exact Hj|apply set_add_in].
Qed.

(** If the welcome send fails, the [finally] of [websocket_endpoint] raises
    [UnboundLocalError] on [heartbeat_task] before [disconnect] runs: the
    client stays registered under its id and nobody is told it joined or
    left. *)
Theorem welcome_failure_keeps_client dumps json_loads ts (cm : ConnectionManager)
    (ws : WebSocket) (cid : string) (frames : list string) :
  ws_open ws = false ->
  websocket_endpoint dumps json_loads ts cm ws cid frames =
    (Raised, connect cm cid ws,
          [SendFailed cid (dumps (JObj [("type", JStr "connected"); ("client_id", JStr cid);
                                        ("timestamp", JStr ts)]))]) /\
  dict_get cid (active_connections (connect cm cid ws)) = Some ws.
Proof.
  intros Hw. assert (Hg : dict_get cid (active_connections (connect cm cid ws)) = Some ws)
    by apply dict_get_set_same.
  split; [|exact Hg].
  unfold websocket_endpoint, send_personal_message. rewrite Hg.
  unfold send_json. rewrite Hw. reflexivity.
Qed.

Lemma chat_finally (cm4 : ConnectionManager) (cid room : string) (m : Message) :
  dict_get room (rooms cm4) <> None ->
  gone cid (fst (broadcast_to_room (disconnect cid (leave_room cm4 cid room)) room m None)) /\
  dict_get room (rooms (fst (broadcast_to_room (disconnect cid (leave_room cm4 cid room)) room m None)))
    <> None.
Proof.
  intros H. split.
  - apply room_broadcast_gone, disconnect_gone_self.
  - apply room_broadcast_keeps_room, disconnect_keeps_room.
    unfold leave_room. destruct (dict_get room (rooms cm4)) eqn:E; [|congruence].
    apply dict_set_keeps_key. rewrite E. discriminate.
Qed.

(** [chat_room] always cleans up, whether the peer leaves or the welcome
    send raises: afterwards the client is unregistered and in no room, and
    the room itself is still a key of [self.rooms], even when empty. *)
Theorem chat_room_cleanup dumps ts (cm : ConnectionManager) (ws : WebSocket)
    (cid room : string) (frames : list string) :
  gone cid (snd (fst (chat_room dumps ts cm ws cid room frames))) /\
  dict_get (str_key room) (rooms (snd (fst (chat_room dumps ts cm ws cid room frames)))) <> None.
Proof.
  unfold chat_room.
  set (k := str_key room).
  destruct (join_room_rooms (connect cm cid ws) cid k) as (rs & Eq & _ & _ & _ & _).
  assert (H1 : dict_get k (rooms (join_room (connect cm cid ws) cid k)) <> None)
    by (rewrite Eq, dict_get_set_same; discriminate).
  set (cm1 := join_room (connect cm cid ws) cid k) in H1 |- *. clearbody cm1.
  match goal with |- context [send_personal_message cm1 ?M cid] =>
    pose proof (send_personal_state cm1 M cid) as Hs;
    destruct (send_personal_message cm1 M cid) as [[r cm2] tr1] end.
  cbn [fst snd] in Hs. subst cm2.
  assert (Tail : forall cm4 tr23,
    dict_get k (rooms cm4) <> None ->
    gone cid (snd (fst (let cm5 := disconnect cid (leave_room cm4 cid k) in
      let (cm6, tr4) := broadcast_to_room cm5 k
        (dumps (JObj [("type", JStr "user_left"); ("client_id", JStr cid);
                      ("users_count", JNum (Z.of_nat (get_room_count cm5 k)))])) None in
      (r, cm6, tr1 ++ tr23 ++ tr4)))) /\
    dict_get k (rooms (snd (fst (let cm5 := disconnect cid (leave_room cm4 cid k) in
      let (cm6, tr4) := broadcast_to_room cm5 k
        (dumps (JObj [("type", JStr "user_left"); ("client_id", JStr cid);
                      ("users_count", JNum (Z.of_nat (get_room_count cm5 k)))])) None in
      (r, cm6, tr1 ++ tr23 ++ tr4))))) <> None).
  { intros cm4 tr23 H4. cbv zeta.
    match goal with |- context [broadcast_to_room ?c5 k ?M None] =>
      pose proof (chat_finally cm4 cid k M H4) as Hf;
      destruct (broadcast_to_room c5 k M None) as [cm6 tr4] end.
    exact Hf. }
  destruct r.
  - match goal with |- context [broadcast_to_room cm1 k ?M (Some cid)] =>
      pose proof (room_broadcast_keeps_room cm1 k k M (Some cid) H1) as H3;
      destruct (broadcast_to_room cm1 k M (Some cid)) as [cm3 tr2] end.
    cbn [fst] in H3.
    pose proof (chat_loop_keeps_room dumps ts cm3 cid room k frames H3) as H4.
    destruct (chat_loop dumps ts cm3 cid room frames) as [cm4 tr3].
    apply (Tail cm4 (tr2 ++ tr3) H4).
  - apply (Tail cm1 [] H1).
Qed.

Lemma invalid_json_error_reply_witness :
  demo_loads "oops" = None /\
  exists o tr, handle_frame demo_dumps demo_loads "t0" cm_rooms "b" "oops" = (o, cm_rooms, tr).
Proof.
  split; [reflexivity|].
  destruct (invalid_json_error_reply demo_dumps demo_loads "t0" cm_rooms "b" "oops" eq_refl)
    as (o & tr & H & _).
  exists o, tr. exact H.
Defined.

Lemma non_object_frame_ends_loop_witness :
  receive_loop demo_dumps demo_loads "t0" cm_rooms "b" ["[1]"; "sub"] = (Failed, cm_rooms, []).
Proof.
  apply (non_object_frame_ends_loop demo_dumps demo_loads "t0" cm_rooms "b" "[1]" (JArr [JNum 1])).
  - reflexivity.
  - intros kvs. discriminate.
Defined.

Lemma unknown_type_ignored_witness :
  handle_frame demo_dumps demo_loads "t0" cm_rooms "b" "odd" = (Continue, cm_rooms, []).
Proof.
  apply (unknown_type_ignored demo_dumps demo_loads "t0" cm_rooms "b" "odd" [("type", JStr "shout")]);
    reflexivity.
Defined.

Lemma subscribe_makes_member_witness :
  exists s, dict_get "lobby" (rooms (snd (fst (handle_frame demo_dumps demo_loads "t0" cm_rooms "c" "sub"))))
              = Some s /\ In "c" s.
Proof.
  apply (subscribe_makes_member demo_dumps demo_loads "t0" cm_rooms "c" "sub"
           [("type", JStr "subscribe"); ("room", JStr "lobby")] (JStr "lobby") "lobby");
    reflexivity.
Defined.

Lemma welcome_failure_keeps_client_witness :
  dict_get "c" (active_connections (connect cm_rooms "c" ws_down)) = Some ws_down.
Proof.
  apply (proj2 (welcome_failure_keeps_client demo_dumps demo_loads "t0" cm_rooms ws_down "c"
                  ["sub"] eq_refl)).
Defined.

Lemma dict_del_absent (k : string) (d : list (string * WebSocket)) :
  ~ In k (map fst d) -> dict_del k d = d.
Proof.
  unfold dict_del. induction d as [|[k' v] d IH]; simpl; intros H; [reflexivity|].
  destruct (String.eqb_spec k k') as [E|E]; [subst; tauto|].
  simpl. rewrite IH; [reflexivity|tauto].
Qed.

Lemma dict_del_length (k : string) (d : list (string * WebSocket)) :
  NoDup (map fst d) -> In k (map fst d) -> S (List.length (dict_del k d)) = List.length d.
Proof.
  induction d as [|[k' v] d IH]; simpl; intros Hn Hin; [destruct Hin|].
  inversion Hn as [|x l Hx Hd]; subst.
  unfold dict_del in *. cbn [filter fst].
  destruct (String.eqb_spec k k') as [E|E]; cbn [negb List.length].
  - subst. fold (dict_del k' d). rewrite dict_del_absent by exact Hx. reflexivity.
  - destruct Hin as [Hin|Hin]; [congruence|]. rewrite <- (IH Hd Hin). reflexivity.
Qed.

Lemma disconnect_all_length (ids : list string) (cm : ConnectionManager) :
  NoDup ids -> NoDup (map fst (active_connections cm)) ->
  (forall j, In j ids -> In j (map fst (active_connections cm))) ->
  (List.length (active_connections (disconnect_all ids cm)) + List.length ids)%nat =
  List.length (active_connections cm).
Proof.
  revert cm; induction ids as [|j ids IH]; intros cm Hi Hn Hs; [simpl; lia|].
  inversion Hi as [|x l Hx Hd]; subst.
  change (disconnect_all (j :: ids) cm) with (disconnect_all ids (disconnect j cm)).
  assert (Hj : In j (map fst (active_connections cm))) by (apply Hs; left; reflexivity).
  assert (Eq : active_connections (disconnect j cm) = dict_del j (active_connections cm)).
  { unfold disconnect; cbn [active_connections].
    destruct (dict_get j (active_connections cm)) eqn:E; [reflexivity|].
    apply dict_get_none in E. contradiction. }
  assert (H2 : NoDup (map fst (active_connections (disconnect j cm))))
    by (rewrite Eq; apply NoDup_fst_filter, Hn).
  assert (H3 : forall i, In i ids -> In i (map fst (active_connections (disconnect j cm)))).
  { intros i Hin. assert (Hij : j <> i) by (intros ->; contradiction).
    destruct (proj1 (in_map_iff _ _ _) (Hs i (or_intror Hin))) as (kv & Hk & Hkv).
    rewrite Eq. apply in_map_iff. exists kv. split; [exact Hk|].
    unfold dict_del. apply filter_In. split; [exact Hkv|].
    subst i. destruct (String.eqb_spec j (fst kv)); [contradiction|reflexivity]. }
  pose proof (IH (disconnect j cm) Hd H2 H3) as IHc. rewrite Eq in IHc.
  pose proof (dict_del_length j _ Hn Hj). cbn [List.length]. lia.
Qed.

(** [get_stats()], lines 398-407: the number of registered connections and
    the size of every room. *)
Definition get_stats (cm : ConnectionManager) : nat * list (string * nat) :=
  (List.length (active_connections cm),
   map (fun rs => (fst rs, List.length (snd rs))) (rooms cm)).

Lemma broadcast_total_quiet (cm : ConnectionManager) (m : Message) (ex : option string) :
  NoDup (map fst (active_connections cm)) ->
  (fst (get_stats (fst (broadcast cm m ex))) +
   List.length (dead_ids (targets ex (active_connections cm))))%nat =
  fst (get_stats cm).
Proof.
  intros Hn. unfold get_stats; cbn [fst]. rewrite broadcast_state. apply disconnect_all_length.
  - unfold dead_ids, targets. apply NoDup_fst_filter, NoDup_fst_filter, Hn.
  - exact Hn.
  - intros j Hj. unfold dead_ids, targets in Hj. rewrite in_map_iff in Hj |- *.
    destruct Hj as (kv & Hk & Hin). apply filter_In in Hin as [Hin _].
    apply filter_In in Hin as [Hin _]. exists kv; auto.
Qed.

(** With unique ids, a [broadcast] during which no other coroutine acts
    lowers "total_connections" in [get_stats()] by exactly the number of
    non-excluded connections whose send failed. A room broadcast never
    changes it itself, whatever other coroutines do meanwhile: afterwards
    it is what their steps made it. *)
Theorem broadcast_total_connections (cm : ConnectionManager) (m : Message)
    (ex : option string) (room : string) (env : list (list SyncOp)) (picks : list IterStep) :
  NoDup (map fst (active_connections cm)) ->
  (fst (get_stats (snd (fst (broadcast_run m ex cm [] picks)))) +
   List.length (dead_ids (targets ex (active_connections cm))))%nat =
  fst (get_stats cm) /\
  (let '(_, cm', tr) := broadcast_to_room_run m ex room cm env picks in
   fst (get_stats cm') = fst (get_stats (run_windows (firstn (List.length tr) env) cm))).
Proof.
  intros Hn. split.
  - rewrite broadcast_run_quiet. apply broadcast_total_quiet, Hn.
  - unfold broadcast_to_room_run.
    destruct (dict_get room (rooms cm)) as [members|]; [|reflexivity].
    pose proof (room_loop_state m ex room (S (List.length members + List.length picks))
                  (List.length members) 0 false env picks cm []
                  ltac:(unfold iter_measure; lia)) as Hst.
    destruct (room_loop _ _ _ _ _ _ _ _ _ _ _) as [[r cm'] tr].
    destruct r; [destruct Hst as ((d & ->) & _)|subst cm']; reflexivity.
Qed.

Lemma broadcast_total_connections_witness :
  (fst (get_stats (snd (fst (broadcast_run "hi" None cm_five [] [])))) + 1)%nat =
  fst (get_stats cm_five).
Proof.
  assert (H : NoDup (map fst (active_connections cm_five))).
  { simpl. repeat constructor; simpl; intuition discriminate. }
  exact (proj1 (broadcast_total_connections cm_five "hi" None "r" [] [] H)).
Defined.

End WS.
